(** * test_personas: the two-round persona panel of [run.py]

    A shallow embedding of [src/test_personas/run.py]: the persona store
    ([load_personas]), the prompt formatter ([format_persona_for_prompt]),
    the two completion wrappers and the aggregator ([run]).

    Effects are explicit.  A computation reads the events that happened
    before it and returns the events it adds together with a value or the
    exception it raised.  Events are the records handed to the logger and
    the calls made to the completion endpoint, in program order.  What the
    program cannot decide (directory listings, the outcome of parsing a
    file, the random draws of [random.sample], the answers of the
    endpoint) is read from an environment record. *)

From Stdlib Require Import String Ascii List ZArith Lia Bool QArith_base DecimalString
  Permutation.
Import ListNotations.
Close Scope Q_scope.
Open Scope list_scope.
Open Scope string_scope.

Set Implicit Arguments.
Set Warnings "-register-all".

(** ** Values read from persona files *)

(** Scalars of a parsed YAML document; these are also the values Python can
    use as dictionary keys.  Floats and timestamps are not modelled. *)
Inductive scalar : Type :=
| KNull
| KBool (b : bool)
| KInt (z : Z)
| KStr (s : string).

(** The result of [yaml.safe_load]: a scalar, a list or a dict.  A dict is
    kept as its items in insertion order. *)
Inductive yaml : Type :=
| YScalar (k : scalar)
| YSeq (items : list yaml)
| YMap (entries : list (scalar * yaml)).

Definition YStr (s : string) : yaml := YScalar (KStr s).

(** Python's [==] on scalars: [True == 1] and [False == 0]; otherwise values
    of different types differ. *)
Definition norm (k : scalar) : scalar :=
  match k with
  | KBool true => KInt 1
  | KBool false => KInt 0
  | _ => k
  end.

Definition raw_eqb (a b : scalar) : bool :=
  match a, b with
  | KNull, KNull => true
  | KBool x, KBool y => Bool.eqb x y
  | KInt x, KInt y => Z.eqb x y
  | KStr x, KStr y => String.eqb x y
  | _, _ => false
  end.

Definition scalar_eqb (a b : scalar) : bool := raw_eqb (norm a) (norm b).

(** ** Exceptions *)

Inductive exn : Type :=
| KeyError (k : string)
| TypeError (what : string)
| ValueError (what : string)
| OtherError (class text : string).
(* [OtherError] stands for what the environment raises: OSError from
   [open], yaml.YAMLError from [safe_load], the client's API errors.  The
   text carried by [TypeError] names the operation that failed. *)

Definition result (A : Type) : Type := (exn + A)%type.

Definition rbind {A B} (r : result A) (k : A -> result B) : result B :=
  match r with
  | inl e => inl e
  | inr a => k a
  end.

Notation "x <-? r ; k" := (rbind r (fun x => k))
  (at level 61, r at next level, right associativity).

(** ** Python operations on parsed values *)

Fixpoint assoc (k : scalar) (m : list (scalar * yaml)) : option yaml :=
  match m with
  | [] => None
  | (k', v) :: rest => if scalar_eqb k' k then Some v else assoc k rest
  end.

(** [v[k]] for a string literal [k]: only a dict can be indexed by a string. *)
Definition subscript (v : yaml) (k : string) : result yaml :=
  match v with
  | YMap m =>
      match assoc (KStr k) m with
      | Some x => inr x
      | None => inl (KeyError k)
      end
  | YSeq _ => inl (TypeError "list indices must be integers or slices, not str")
  | YScalar (KStr _) => inl (TypeError "string indices must be integers, not 'str'")
  | YScalar KNull => inl (TypeError "'NoneType' object is not subscriptable")
  | YScalar (KBool _) => inl (TypeError "'bool' object is not subscriptable")
  | YScalar (KInt _) => inl (TypeError "'int' object is not subscriptable")
  end.

(** Hashing a dictionary key: lists and dicts are unhashable. *)
Definition as_key (v : yaml) : result scalar :=
  match v with
  | YScalar k => inr k
  | _ => inl (TypeError "unhashable type")
  end.

Fixpoint chars (s : string) : list string :=
  match s with
  | EmptyString => []
  | String c rest => String c EmptyString :: chars rest
  end.

(** [iter(v)]: a list yields its items, a string its characters, a dict its
    keys. *)
Definition iterate (v : yaml) : result (list yaml) :=
  match v with
  | YSeq l => inr l
  | YMap m => inr (map (fun kv => YScalar (fst kv)) m)
  | YScalar (KStr s) => inr (map YStr (chars s))
  | YScalar KNull => inl (TypeError "'NoneType' object is not iterable")
  | YScalar (KBool _) => inl (TypeError "'bool' object is not iterable")
  | YScalar (KInt _) => inl (TypeError "'int' object is not iterable")
  end.

Definition as_str (what : string) (v : yaml) : result string :=
  match v with
  | YScalar (KStr s) => inr s
  | _ => inl (TypeError what)
  end.

Fixpoint mapM {A B} (f : A -> result B) (l : list A) : result (list B) :=
  match l with
  | [] => inr []
  | x :: rest => y <-? f x; ys <-? mapM f rest; inr (y :: ys)
  end.

Definition nl : string := String (ascii_of_nat 10) EmptyString.

(** [sep.join(l)] *)
Definition join (sep : string) (l : list string) : string := String.concat sep l.

Definition str_of_Z (z : Z) : string := NilZero.string_of_int (Z.to_int z).

Section Str.
(** [repr] of lists and dicts is left to the caller. *)
Variable repr_container : yaml -> string.

(** [str(v)], as an f-string field renders a value. *)
Definition py_str (v : yaml) : string :=
  match v with
  | YScalar (KStr s) => s
  | YScalar KNull => "None"
  | YScalar (KBool true) => "True"
  | YScalar (KBool false) => "False"
  | YScalar (KInt z) => str_of_Z z
  | _ => repr_container v
  end.
End Str.

(** ** Strings and paths *)

Fixpoint prefixb (p s : string) : bool :=
  match p, s with
  | EmptyString, _ => true
  | String a p', String b s' => Ascii.eqb a b && prefixb p' s'
  | String _ _, EmptyString => false
  end.

(** [sub in s] *)
Fixpoint contains (sub s : string) : bool :=
  prefixb sub s ||
  match s with
  | EmptyString => false
  | String _ s' => contains sub s'
  end.

(** [s.endswith(suffix)] *)
Fixpoint ends_with (suffix s : string) : bool :=
  String.eqb suffix s ||
  match s with
  | EmptyString => false
  | String _ s' => ends_with suffix s'
  end.

(** [os.path.join(a, b)] on POSIX. *)
Definition path_join (a b : string) : string :=
  if prefixb "/" b then b
  else if String.eqb a "" || ends_with "/" a then a ++ b
  else a ++ "/" ++ b.

(** ** Events and the environment *)

Inductive level : Type := DEBUG | INFO | ERROR.

(** A log record: the text of the f-string with [{}] for each field, and
    the values of the fields.  [FPath dir name] is the [Path] object of the
    entry [name] of [Path(dir)]. *)
Inductive field : Type :=
| FStr (s : string)
| FInt (z : Z)
| FVal (v : yaml)
| FPath (dir name : string)
| FExn (e : exn).

Record request : Type := {
  model : string;
  system_content : string;
  user_content : string;
  temperature : Q
}.

Inductive event : Type :=
| Log (lvl : level) (text : string) (fields : list field)
| Create (req : request) (res : result string).

(** An entry of a directory: its name and what [open] followed by
    [yaml.safe_load] gives for it. *)
Record dirent : Type := {
  d_name : string;
  d_load : result yaml
}.

Record env : Type := {
  (** entries directly under a directory; [None] when there is no such
      directory (or it cannot be read) *)
  listdir : string -> option (list dirent);
  (** the numbers drawn by [random.sample] *)
  draws : list nat;
  (** [openai.AsyncClient()]: [Some e] when the constructor raises *)
  client_error : option exn;
  (** the endpoint: the text of [response.choices[0].message.content], or
      what the [try] body raises; it may depend on everything before *)
  completion : list event -> request -> result string;
  (** [repr] of lists and dicts *)
  repr_of : yaml -> string
}.

(** ** Computations *)

Definition M (A : Type) : Type := list event -> list event * result A.

Definition ret {A} (a : A) : M A := fun _ => ([], inr a).

Definition raise {A} (e : exn) : M A := fun _ => ([], inl e).

Definition lift {A} (r : result A) : M A := fun _ => ([], r).

Definition bind {A B} (m : M A) (k : A -> M B) : M B := fun h =>
  match m h with
  | (ev, inl e) => (ev, inl e)
  | (ev, inr a) => let (ev', r) := k a (h ++ ev)%list in ((ev ++ ev')%list, r)
  end.

(** [try: m  except Exception as e: handler e] *)
Definition try_except {A} (m : M A) (handler : exn -> M A) : M A := fun h =>
  match m h with
  | (ev, inl e) => let (ev', r) := handler e (h ++ ev)%list in ((ev ++ ev')%list, r)
  | (ev, inr a) => (ev, inr a)
  end.

Definition log (lvl : level) (text : string) (fields : list field) : M unit :=
  fun _ => ([Log lvl text fields], inr tt).

Notation "x <- m ;; k" := (bind m (fun x => k))
  (at level 61, m at next level, right associativity).
Notation "m ;; k" := (bind m (fun _ => k))
  (at level 61, right associativity).

(** ** [random.sample] *)

Fixpoint remove_nth {A} (n : nat) (l : list A) : list A :=
  match n, l with
  | _, [] => []
  | O, _ :: rest => rest
  | S n', x :: rest => x :: remove_nth n' rest
  end.

(** [k] positions taken from [pool] without replacement, each draw picking
    one of the positions still in the pool. *)
Fixpoint sample_positions (ds : list nat) (pool : list nat) (k : nat) : list nat :=
  match k with
  | O => []
  | S k' =>
      match pool with
      | [] => []
      | _ :: _ =>
          let j := Nat.modulo (hd O ds) (length pool) in
          nth j pool O :: sample_positions (tl ds) (remove_nth j pool) k'
      end
  end.

Definition select {A} (population : list A) (positions : list nat) : list A :=
  flat_map (fun i => match nth_error population i with
                     | Some x => [x]
                     | None => []
                     end) positions.

Definition sampled_positions (ds : list nat) (n : nat) (k : Z) : list nat :=
  sample_positions ds (seq 0 n) (Z.to_nat k).

(** [random.sample(population, k)] raises ValueError unless
    [0 <= k <= len(population)]. *)
Definition random_sample {A} (ds : list nat) (population : list A) (k : Z)
  : result (list A) :=
  if (k <? 0)%Z || (Z.of_nat (length population) <? k)%Z
  then inl (ValueError "Sample larger than population or is negative")
  else inr (select population (sampled_positions ds (length population) k)).

(** ** The program *)

Section Program.
Variable E : env.

(** [Path(personas_dir).glob('*.yaml')]: the entries directly under the
    directory whose name ends in [.yaml]; nothing when the directory does
    not exist. *)
Definition glob_yaml (personas_dir : string) : list dirent :=
  match listdir E personas_dir with
  | None => []
  | Some entries => filter (fun d => ends_with ".yaml" (d_name d)) entries
  end.

(** [file_path] of the loop: the [Path] of an entry found by the glob. *)
Definition file_path (personas_dir : string) (d : dirent) : field :=
  FPath personas_dir (d_name d).

(** One turn of the loop of lines 26-34.  The [try] body appends the
    parsed value (line 31) before it looks up ['name'] for the log record
    (line 32); the handler of line 33 catches a failure of either. *)
Definition load_file (personas_dir : string) (d : dirent) (personas : list yaml)
  : M (list yaml) :=
  log DEBUG "Loading persona from {}" [file_path personas_dir d];;
  match d_load d with
  | inl e =>
      log ERROR "Error loading persona from {}: {}"
          [file_path personas_dir d; FExn e];;
      ret personas
  | inr persona =>
      let personas := (personas ++ [persona])%list in
      match subscript persona "name" with
      | inl e =>
          log ERROR "Error loading persona from {}: {}"
              [file_path personas_dir d; FExn e];;
          ret personas
      | inr name =>
          log DEBUG "Loaded persona: {}" [FVal name];;
          ret personas
      end
  end.

Fixpoint load_files (personas_dir : string) (selected_files : list dirent)
         (personas : list yaml) : M (list yaml) :=
  match selected_files with
  | [] => ret personas
  | d :: rest =>
      personas <- load_file personas_dir d personas;;
      load_files personas_dir rest personas
  end.

Definition load_personas (personas_dir : string) (num_personas : Z)
  : M (list yaml) :=
  log INFO "Loading {} personas from {}" [FInt num_personas; FStr personas_dir];;
  let personas := [] in
  let yaml_files := glob_yaml personas_dir in
  log INFO "Found {} persona files" [FInt (Z.of_nat (length yaml_files))];;
  selected_files <-
    lift (random_sample (draws E) yaml_files
            (Z.min num_personas (Z.of_nat (length yaml_files))));;
  personas <- load_files personas_dir selected_files personas;;
  log INFO "Successfully loaded {} personas" [FInt (Z.of_nat (length personas))];;
  ret personas.

(** Line 48: [' '.join('- ' + obj for obj in persona['objectives'])] *)
Definition objectives_text (objectives : yaml) : result string :=
  objs <-? iterate objectives;
  items <-? mapM (fun obj => s <-? as_str "can only concatenate str to str" obj;
                             inr ("- " ++ s)) objs;
  inr (join " " items).

(** Line 51: [', '.join(persona['trader_type'])] *)
Definition trader_type_text (trader_type : yaml) : result string :=
  tags <-? iterate trader_type;
  items <-? mapM (as_str "sequence item: expected str instance") tags;
  inr (join ", " items).

(** The f-string of lines 42-53, its fields evaluated left to right. *)
Definition persona_text (persona : yaml) : result string :=
  name <-? subscript persona "name";
  background <-? subscript persona "persona";
  objectives <-? subscript persona "objectives";
  objectives <-? objectives_text objectives;
  role <-? subscript persona "role";
  trader_type <-? subscript persona "trader_type";
  trader_type <-? trader_type_text trader_type;
  inr ("You are " ++ py_str (repr_of E) name ++ "." ++ nl
       ++ nl
       ++ "Background and Personality:" ++ nl
       ++ py_str (repr_of E) background ++ nl
       ++ nl
       ++ "Your objectives are:" ++ nl
       ++ objectives ++ nl
       ++ nl
       ++ "You are a " ++ py_str (repr_of E) role
       ++ " with the following trader characteristics:" ++ nl
       ++ trader_type ++ nl
       ++ nl
       ++ "Please analyze the question from your unique perspective, considering your background, objectives, and personality traits.").

Definition format_persona_for_prompt (persona : yaml) : M string :=
  name <- lift (subscript persona "name");;
  log DEBUG "Formatting prompt for persona: {}" [FVal name];;
  lift (persona_text persona).

Definition individual_system_prompt : string :=
  "You are a market participant with specific personality traits, background, and objectives. " ++ nl
  ++ "Analyze the given question from your persona's perspective, considering their unique characteristics, experience, and goals." ++ nl
  ++ "Provide a detailed response that reflects your persona's viewpoint, knowledge level, and decision-making style.".

Definition individual_user_prompt (formatted question : string) : string :=
  nl ++ formatted ++ nl
  ++ nl
  ++ "Question: " ++ question ++ nl
  ++ nl
  ++ "Provide your analysis and opinion on this question, staying true to your persona's characteristics.".

Definition individual_request (formatted question : string) : request :=
  {| model := "gpt-4";
     system_content := individual_system_prompt;
     user_content := individual_user_prompt formatted question;
     temperature := Qmake 7 10 |}.

(** [client.chat.completions.create(...)] followed by
    [response.choices[0].message.content]. *)
Definition chat_create (req : request) : M string :=
  fun h => let r := completion E h req in ([Create req r], r).

(** The persona is not mutated, so the lookups of ['name'] after the
    first one (lines 79 and 82) give the value bound at line 57. *)
Definition get_individual_response (persona : yaml) (question : string) : M string :=
  name <- lift (subscript persona "name");;
  log INFO "Getting individual response from persona: {}" [FVal name];;
  formatted <- format_persona_for_prompt persona;;
  try_except
    (response <- chat_create (individual_request formatted question);;
     log DEBUG "Received response for {}" [FVal name];;
     ret response)
    (fun e =>
       log ERROR "Error getting response for {}: {}" [FVal name; FExn e];;
       raise e).

Definition collective_system_prompt : string :=
  "You are a market participant in a group discussion. " ++ nl
  ++ "Consider both your unique perspective and the insights shared by others when forming your final opinion." ++ nl
  ++ "Maintain your persona's characteristics while engaging with others' viewpoints.".

(** Line 99: ['-' + '\n-'.join(other_responses)] *)
Definition peer_text (other_responses : list string) : string :=
  "-" ++ join (nl ++ "-") other_responses.

Definition collective_user_prompt (formatted question : string)
           (other_responses : list string) : string :=
  nl ++ formatted ++ nl
  ++ nl
  ++ "Question: " ++ question ++ nl
  ++ nl
  ++ "Other participants have shared these perspectives:" ++ nl
  ++ peer_text other_responses ++ nl
  ++ nl
  ++ "Considering these viewpoints and your own characteristics, provide your final analysis and opinion.".

Definition collective_request (formatted question : string)
           (other_responses : list string) : request :=
  {| model := "gpt-4o-mini";
     system_content := collective_system_prompt;
     user_content := collective_user_prompt formatted question other_responses;
     temperature := Qmake 6 10 |}.

Definition get_collective_response (persona : yaml) (question : string)
           (other_responses : list string) : M string :=
  name <- lift (subscript persona "name");;
  log INFO "Getting collective response from persona: {}" [FVal name];;
  formatted <- format_persona_for_prompt persona;;
  try_except
    (response <- chat_create (collective_request formatted question other_responses);;
     log DEBUG "Received collective response for {}" [FVal name];;
     ret response)
    (fun e =>
       log ERROR "Error getting collective response for {}: {}" [FVal name; FExn e];;
       raise e).

(** *** Response mappings *)

(** A Python dict from persona name to text, as its items in insertion
    order. *)
Definition dict : Type := list (scalar * string).

Definition keys (d : dict) : list scalar := map fst d.
Definition values (d : dict) : list string := map snd d.

(** [d[k] = v]: an existing key keeps its place and takes the new value. *)
Fixpoint dict_set (d : dict) (k : scalar) (v : string) : dict :=
  match d with
  | [] => [(k, v)]
  | (k', v') :: rest =>
      if scalar_eqb k' k then (k', v) :: rest
      else (k', v') :: dict_set rest k v
  end.

(** [d[name] = v] for a parsed value [name] (lines 137 and 154). *)
Definition dict_store (d : dict) (name : yaml) (v : string) : result dict :=
  k <-? as_key name; inr (dict_set d k v).

(** Lines 145-146.  The condition, and with it [persona['name']], is
    evaluated once for each item of the dict. *)
Definition other_responses (individual_responses : dict) (persona : yaml)
  : result (list string) :=
  match individual_responses with
  | [] => inr []
  | _ :: _ =>
      name <-? subscript persona "name";
      inr (values (filter (fun kv =>
                             match as_key name with
                             | inr k => negb (scalar_eqb (fst kv) k)
                             | inl _ => true
                             end) individual_responses))
  end.

Record run_result : Type := {
  individual_responses : dict;
  collective_responses : dict
}.

(** The loop of lines 135-137. *)
Fixpoint individual_phase (personas : list yaml) (question : string)
         (responses : dict) : M dict :=
  match personas with
  | [] => ret responses
  | persona :: rest =>
      response <- get_individual_response persona question;;
      name <- lift (subscript persona "name");;
      responses <- lift (dict_store responses name response);;
      individual_phase rest question responses
  end.

(** The loop of lines 143-154. *)
Fixpoint collective_phase (personas : list yaml) (question : string)
         (individual : dict) (responses : dict) : M dict :=
  match personas with
  | [] => ret responses
  | persona :: rest =>
      others <- lift (other_responses individual persona);;
      response <- get_collective_response persona question others;;
      name <- lift (subscript persona "name");;
      responses <- lift (dict_store responses name response);;
      collective_phase rest question individual responses
  end.

(** Lines 132-164 of [run]: the two rounds over the loaded personas. *)
Definition run_rounds (personas : list yaml) (question : string) : M run_result :=
  log INFO "Starting first iteration: Individual responses" [];;
  individual <- individual_phase personas question [];;
  log INFO "Completed individual responses for {} personas"
      [FInt (Z.of_nat (length individual))];;
  log INFO "Starting second iteration: Collective responses" [];;
  collective <- collective_phase personas question individual [];;
  log INFO "Completed collective responses for {} personas"
      [FInt (Z.of_nat (length collective))];;
  let result := {| individual_responses := individual;
                   collective_responses := collective |} in
  log INFO "Completed persona simulation run" [];;
  ret result.

Definition new_client : M unit :=
  match client_error E with
  | Some e => raise e
  | None => ret tt
  end.

(** Lines 127-129. *)
Definition personas_dir_of (agents_dir : option string) : string :=
  let personas_dir :=
    match agents_dir with
    | Some d => d
    | None => "./market_agents_personas"
    end in
  if negb (contains "market_agents_personas" personas_dir)
  then path_join personas_dir "personas/market_agents_personas"
  else personas_dir.

(** [run(agent_run, **kwargs)] with [agent_run.inputs.question],
    [agent_run.inputs.num_personas] and [kwargs.get('agents_dir')]. *)
Definition run (question : string) (num_personas : Z) (agents_dir : option string)
  : M run_result :=
  log INFO "Starting persona simulation run" [];;
  log INFO "Question: {}" [FStr question];;
  log INFO "Number of personas requested: {}" [FInt num_personas];;
  new_client;;
  let personas_dir := personas_dir_of agents_dir in
  personas <- load_personas personas_dir num_personas;;
  run_rounds personas question.

End Program.

(** ** What the loader does, in closed form *)

Section Closed.
Variable E : env.

(** The personas appended by the loop over the selected files: the value
    of every file that opened and parsed, in order. *)
Definition parsed (selected_files : list dirent) : list yaml :=
  flat_map (fun d => match d_load d with
                     | inr persona => [persona]
                     | inl _ => []
                     end) selected_files.

(** The log records of one turn of that loop. *)
Definition file_events (personas_dir : string) (d : dirent) : list event :=
  Log DEBUG "Loading persona from {}" [file_path personas_dir d] ::
  match d_load d with
  | inl e => [Log ERROR "Error loading persona from {}: {}"
                  [file_path personas_dir d; FExn e]]
  | inr persona =>
      match subscript persona "name" with
      | inl e => [Log ERROR "Error loading persona from {}: {}"
                      [file_path personas_dir d; FExn e]]
      | inr name => [Log DEBUG "Loaded persona: {}" [FVal name]]
      end
  end.

Definition load_events (personas_dir : string) (selected_files : list dirent)
  : list event :=
  flat_map (file_events personas_dir) selected_files.

Definition available (personas_dir : string) : nat :=
  length (glob_yaml E personas_dir).

(** The positions, in the listing of [*.yaml] files, of the files that
    [load_personas] selects. *)
Definition selected_positions (personas_dir : string) (num_personas : Z) : list nat :=
  sampled_positions (draws E) (available personas_dir)
    (Z.min num_personas (Z.of_nat (available personas_dir))).

Definition selected_files (personas_dir : string) (num_personas : Z) : list dirent :=
  select (glob_yaml E personas_dir) (selected_positions personas_dir num_personas).

(** The key under which a persona's answers are stored. *)
Definition name_key (persona : yaml) : option scalar :=
  match subscript persona "name" with
  | inr (YScalar k) => Some k
  | _ => None
  end.

(** The three records that open [run]. *)
Definition run_prelude (question : string) (num_personas : Z) : list event :=
  [Log INFO "Starting persona simulation run" [];
   Log INFO "Question: {}" [FStr question];
   Log INFO "Number of personas requested: {}" [FInt num_personas]].
End Closed.

(** Names pairwise different as dictionary keys. *)
Fixpoint distinct_keys (ks : list scalar) : bool :=
  match ks with
  | [] => true
  | k :: rest => negb (existsb (fun k' => scalar_eqb k' k) rest) && distinct_keys rest
  end.

(** A key is added at the end unless the dict has it already. *)
Definition add_key (ks : list scalar) (k : scalar) : list scalar :=
  if existsb (fun k' => scalar_eqb k' k) ks then ks else (ks ++ [k])%list.

(** The requests sent to a given model, in order. *)
Definition requests_to (m : string) (evs : list event) : list request :=
  flat_map (fun ev => match ev with
                      | Create req _ => if String.eqb (model req) m then [req] else []
                      | Log _ _ _ => []
                      end) evs.

(** The texts a given model answered, in order. *)
Definition answers_of (m : string) (evs : list event) : list string :=
  flat_map (fun ev => match ev with
                      | Create req (inr text) =>
                          if String.eqb (model req) m then [text] else []
                      | _ => []
                      end) evs.

(** The keys of the personas, in load order (a persona whose name is
    missing or unhashable has none). *)
Definition names (personas : list yaml) : list scalar :=
  flat_map (fun persona => match name_key persona with
                           | Some k => [k]
                           | None => []
                           end) personas.

(** Every call among the events goes to model [m]. *)
Definition calls_to (m : string) (evs : list event) : Prop :=
  forall req res, In (Create req res) evs -> model req = m.

(** A persona the two rounds can handle: it renders and has a name that can
    be a dictionary key. *)
Definition usable (E : env) (persona : yaml) : Prop :=
  (exists formatted, persona_text E persona = inr formatted)
  /\ (exists k, name_key persona = Some k).

(** ** Sample panels *)

Definition persona_record (name : string) : yaml :=
  YMap [(KStr "name", YStr name);
        (KStr "persona", YStr "Cautious saver");
        (KStr "objectives", YSeq [YStr "Preserve capital"; YStr "Beat inflation"]);
        (KStr "role", YStr "Investor");
        (KStr "trader_type", YSeq [YStr "Risk averse"; YStr "Long term"])].

Definition persona_file (file name : string) : dirent :=
  {| d_name := file; d_load := inr (persona_record name) |}.

Definition calls_so_far (h : list event) : nat :=
  length (filter (fun ev => match ev with
                            | Create _ _ => true
                            | Log _ _ _ => false
                            end) h).

(** An endpoint that numbers its answers. *)
Definition numbered_answers (h : list event) (req : request) : result string :=
  inr ("answer " ++ str_of_Z (Z.of_nat (calls_so_far h))).

(** An endpoint whose third call fails. *)
Definition third_call_fails (h : list event) (req : request) : result string :=
  if Nat.eqb (calls_so_far h) 2
  then inl (OtherError "APIError" "rate limit")
  else numbered_answers h req.

(** The directory of personas holds [entries] ([None]: there is no such
    directory); the sampler draws 0 every time, which takes the files in
    listing order. *)
Definition panel_env (entries : option (list dirent))
           (endpoint : list event -> request -> result string) : env :=
  {| listdir := fun dir => if String.eqb dir "./market_agents_personas"
                           then entries else None;
     draws := [];
     client_error := None;
     completion := endpoint;
     repr_of := fun _ => "" |}.

Definition three_files : list dirent :=
  [persona_file "ana.yaml" "Ana"; persona_file "bo.yaml" "Bo";
   persona_file "cy.yaml" "Cy"].

Definition five_files : list dirent :=
  [persona_file "ana.yaml" "Ana"; persona_file "bo.yaml" "Bo";
   persona_file "cy.yaml" "Cy"; persona_file "di.yaml" "Di";
   persona_file "ed.yaml" "Ed"].

(** Two files that give the same name, and a third. *)
Definition shared_name_files : list dirent :=
  [persona_file "ana.yaml" "Ana"; persona_file "ana2.yaml" "Ana";
   persona_file "bo.yaml" "Bo"].

Definition malformed_file : dirent :=
  {| d_name := "bad.yaml";
     d_load := inl (OtherError "ScannerError" "mapping values are not allowed here") |}.

(** Five files, the third of which does not parse. *)
Definition one_malformed : list dirent :=
  [persona_file "ana.yaml" "Ana"; persona_file "bo.yaml" "Bo"; malformed_file;
   persona_file "di.yaml" "Di"; persona_file "ed.yaml" "Ed"].

(** A file that parses to a dict without ['name']. *)
Definition nameless_record : yaml :=
  YMap [(KStr "persona", YStr "Cautious saver"); (KStr "role", YStr "Investor")].

Definition nameless_file : dirent :=
  {| d_name := "anon.yaml"; d_load := inr nameless_record |}.

Definition panel_dir : string := "./market_agents_personas".

Definition three_panel : env := panel_env (Some three_files) numbered_answers.

Definition shared_name_panel : env := panel_env (Some shared_name_files) numbered_answers.

(** The text of lines 42-53 for [persona_record name], written out. *)
Definition sample_prompt (name : string) : string :=
  "You are " ++ name ++ "." ++ nl
  ++ nl
  ++ "Background and Personality:" ++ nl
  ++ "Cautious saver" ++ nl
  ++ nl
  ++ "Your objectives are:" ++ nl
  ++ "- Preserve capital - Beat inflation" ++ nl
  ++ nl
  ++ "You are a Investor with the following trader characteristics:" ++ nl
  ++ "Risk averse, Long term" ++ nl
  ++ nl
  ++ "Please analyze the question from your unique perspective, considering your background, objectives, and personality traits.".

Definition no_result : run_result :=
  {| individual_responses := []; collective_responses := [] |}.

(** [s.split('\n')] *)
Fixpoint lines (s : string) : list string :=
  match s with
  | EmptyString => [EmptyString]
  | String c rest =>
      if Ascii.eqb c (ascii_of_nat 10) then EmptyString :: lines rest
      else match lines rest with
           | l :: ls => String c l :: ls
           | [] => [String c EmptyString]
           end
  end.

(** ** Reading a run *)

(** A selected file that [open] or [yaml.safe_load] rejects. *)
Definition failed_to_load (d : dirent) : bool :=
  match d_load d with
  | inl _ => true
  | inr _ => false
  end.

(** A selected file that parses to a value without ['name']. *)
Definition without_name (d : dirent) : bool :=
  match d_load d with
  | inl _ => false
  | inr persona =>
      match subscript persona "name" with
      | inl _ => true
      | inr _ => false
      end
  end.

Definition is_error_record (ev : event) : bool :=
  match ev with
  | Log ERROR _ _ => true
  | _ => false
  end.

(** [d.get(k)] on a response mapping. *)
Fixpoint dict_get (d : dict) (k : scalar) : option string :=
  match d with
  | [] => None
  | (k', v) :: rest => if scalar_eqb k' k then Some v else dict_get rest k
  end.

(** The value of the last pair whose key equals [k]. *)
Definition last_value (pairs : list (scalar * string)) (k : scalar) : option string :=
  fold_left (fun found kv => if scalar_eqb (fst kv) k then Some (snd kv) else found)
            pairs None.

(** A text without a line break. *)
Fixpoint single_line (s : string) : bool :=
  match s with
  | EmptyString => true
  | String c rest => negb (Ascii.eqb c (ascii_of_nat 10)) && single_line rest
  end.

(** A record whose tags are given as one string, not as a list. *)
Definition tags_as_text_record : yaml :=
  YMap [(KStr "name", YStr "Ana");
        (KStr "persona", YStr "Cautious saver");
        (KStr "objectives", YSeq [YStr "Preserve capital"]);
        (KStr "role", YStr "Investor");
        (KStr "trader_type", YStr "bold")].

(** A record whose name is a list. *)
Definition list_name_record : yaml :=
  YMap [(KStr "name", YSeq [YStr "Ana"; YStr "Bo"]);
        (KStr "persona", YStr "Cautious saver");
        (KStr "objectives", YSeq [YStr "Preserve capital"]);
        (KStr "role", YStr "Investor");
        (KStr "trader_type", YSeq [YStr "Risk averse"])].

(** No call to the endpoint among the events. *)
Definition no_call (evs : list event) : Prop :=
  forall req res, ~ In (Create req res) evs.

(** [d[k] = v] for a pair. *)
Definition store (d : dict) (kv : scalar * string) : dict :=
  dict_set d (fst kv) (snd kv).

(** The request of the first round for a persona. *)
Definition asked_alone (E : env) (question : string) (persona : yaml) (req : request)
  : Prop :=
  exists formatted,
    persona_text E persona = inr formatted
    /\ req = individual_request formatted question.

(** A request of the second round for a persona. *)
Definition asked_with_peers (E : env) (question : string) (persona : yaml)
           (req : request) : Prop :=
  exists formatted others,
    persona_text E persona = inr formatted
    /\ req = collective_request formatted question others.

(** An endpoint whose fourth call fails. *)
Definition fourth_call_fails (h : list event) (req : request) : result string :=
  if Nat.eqb (calls_so_far h) 3
  then inl (OtherError "APIError" "rate limit")
  else numbered_answers h req.



(** A nameless record between two well-formed ones. *)
Definition panel_with_nameless : list dirent :=
  [persona_file "ana.yaml" "Ana"; nameless_file; persona_file "bo.yaml" "Bo"].

(** * Properties *)

(** ** Lists and sampling *)

Lemma remove_nth_In A (l : list A) : forall j x,
  In x (remove_nth j l) -> In x l.
Proof.
  induction l as [|a l IH]; intros [|j] x H; simpl in *; auto.
  destruct H as [H|H]; eauto.
Qed.

Lemma remove_nth_length A (l : list A) : forall j,
  j < length l -> length (remove_nth j l) = pred (length l).
Proof.
  induction l as [|a l IH]; intros [|j] H; simpl in *; try lia.
  rewrite IH by lia. lia.
Qed.

Lemma remove_nth_NoDup A (l : list A) : forall j,
  NoDup l -> NoDup (remove_nth j l).
Proof.
  induction l as [|a l IH]; intros [|j] H; simpl; auto.
  - inversion H; assumption.
  - inversion H; subst. constructor; auto.
    intro Hin. apply remove_nth_In in Hin. contradiction.
Qed.

Lemma remove_nth_drops A (d : A) (l : list A) : forall j,
  NoDup l -> j < length l -> ~ In (nth j l d) (remove_nth j l).
Proof.
  induction l as [|a l IH]; intros [|j] H Hj; simpl in *; try lia.
  - inversion H; assumption.
  - inversion H; subst. intros [Heq|Hin].
    + apply H2. rewrite Heq. apply nth_In. lia.
    + revert Hin. apply IH; auto. lia.
Qed.

Lemma sample_positions_spec : forall k ds pool,
  NoDup pool ->
  NoDup (sample_positions ds pool k)
  /\ (forall i, In i (sample_positions ds pool k) -> In i pool)
  /\ length (sample_positions ds pool k) = Nat.min k (length pool).
Proof.
  induction k as [|k IH]; intros ds pool Hnd; simpl.
  - repeat split; [constructor | contradiction].
  - destruct pool as [|p pool]; [repeat split; [constructor | contradiction]|].
    set (l := p :: pool) in *.
    assert (Hl : length l = S (length pool)) by reflexivity.
    assert (Hj : Nat.modulo (hd 0 ds) (length l) < length l)
      by (apply Nat.mod_upper_bound; lia).
    set (j := Nat.modulo (hd 0 ds) (length l)) in *.
    destruct (IH (tl ds) (remove_nth j l) (remove_nth_NoDup j Hnd)) as (H1 & H2 & H3).
    repeat split.
    + constructor; auto. intro Hin. apply H2 in Hin.
      revert Hin. apply remove_nth_drops; auto.
    + intros i [Hi|Hi]; [subst i; apply nth_In; assumption|].
      eapply remove_nth_In; eauto.
    + simpl. rewrite H3, remove_nth_length by assumption. lia.
Qed.

Lemma remove_nth_keeps A (d : A) (l : list A) : forall j x,
  In x l -> x <> nth j l d -> In x (remove_nth j l).
Proof.
  induction l as [|a l IH]; intros [|j] x Hin Hneq; simpl in *; auto.
  - destruct Hin as [Heq|Hin]; [congruence | assumption].
  - destruct Hin as [Heq|Hin]; [left; assumption | right; eauto].
Qed.

(** The sampler can return every choice of pairwise different positions of
    the pool, in every order. *)
Lemma sample_positions_complete : forall target pool,
  NoDup target -> (forall i, In i target -> In i pool) ->
  exists ds, sample_positions ds pool (length target) = target.
Proof.
  induction target as [|t target IH]; intros pool Hnd Hin; simpl.
  - exists []. reflexivity.
  - inversion Hnd as [|? ? Ht Hnd']; subst.
    destruct (In_nth pool t 0 (Hin t (or_introl eq_refl))) as (j & Hj & Hnth).
    destruct (IH (remove_nth j pool) Hnd') as [ds Hds].
    + intros i Hi. apply remove_nth_keeps with (d := 0).
      * apply Hin. right. assumption.
      * rewrite Hnth. intro Heq. subst i. contradiction.
    + exists (j :: ds). destruct pool as [|p pool]; [simpl in Hj; lia|].
      simpl hd. simpl tl. rewrite (Nat.mod_small j _ Hj), Hnth, Hds. reflexivity.
Qed.

Lemma sampled_positions_spec ds n k :
  let pos := sampled_positions ds n k in
  NoDup pos
  /\ (forall i, In i pos -> i < n)
  /\ length pos = Nat.min (Z.to_nat k) n.
Proof.
  unfold sampled_positions.
  destruct (sample_positions_spec (Z.to_nat k) ds (seq_NoDup n 0)) as (H1 & H2 & H3).
  simpl. repeat split; auto.
  - intros i Hi. apply H2, in_seq in Hi. lia.
  - rewrite H3, length_seq. reflexivity.
Qed.

Lemma select_in_range A (population : list A) : forall positions,
  (forall i, In i positions -> i < length population) ->
  Forall2 (fun i x => nth_error population i = Some x)
          positions (select population positions).
Proof.
  induction positions as [|i positions IH]; intros H; simpl.
  - constructor.
  - destruct (nth_error population i) as [x|] eqn:Hx.
    + simpl. constructor; auto. apply IH. intros; apply H; right; assumption.
    + apply nth_error_None in Hx. specialize (H i (or_introl eq_refl)). lia.
Qed.

Lemma Forall2_length_eq A B (R : A -> B -> Prop) l l' :
  Forall2 R l l' -> length l = length l'.
Proof. induction 1; simpl; congruence. Qed.

(** ** The loader *)

Section Loader.
Variable E : env.

Lemma load_file_eq dir d personas h :
  load_file dir d personas h
  = (file_events dir d, inr (personas ++ parsed [d])%list).
Proof.
  unfold load_file, file_events, parsed, bind, log, ret. simpl.
  destruct (d_load d) as [e|persona]; simpl.
  - rewrite app_nil_r. reflexivity.
  - destruct (subscript persona "name"); reflexivity.
Qed.

Lemma load_files_eq dir : forall selected personas h,
  load_files dir selected personas h
  = (load_events dir selected, inr (personas ++ parsed selected)%list).
Proof.
  induction selected as [|d rest IH]; intros personas h; simpl.
  - unfold ret. rewrite app_nil_r. reflexivity.
  - unfold bind. rewrite load_file_eq, IH.
    unfold parsed. simpl. rewrite <- app_assoc, app_nil_r. reflexivity.
Qed.

Lemma load_personas_eq dir n h :
  load_personas E dir n h =
  let files := glob_yaml E dir in
  let found := [Log INFO "Loading {} personas from {}" [FInt n; FStr dir];
                Log INFO "Found {} persona files" [FInt (Z.of_nat (length files))]] in
  match random_sample (draws E) files (Z.min n (Z.of_nat (length files))) with
  | inl e => (found, inl e)
  | inr selected =>
      ((found ++ load_events dir selected
          ++ [Log INFO "Successfully loaded {} personas"
                  [FInt (Z.of_nat (length (parsed selected)))]])%list,
       inr (parsed selected))
  end.
Proof.
  unfold load_personas, bind, log, lift, ret. simpl.
  destruct (random_sample _ _ _) as [e|selected]; simpl; [reflexivity|].
  rewrite load_files_eq. reflexivity.
Qed.

Lemma random_sample_nonneg dir n :
  (0 <= n)%Z ->
  random_sample (draws E) (glob_yaml E dir)
                (Z.min n (Z.of_nat (length (glob_yaml E dir))))
  = inr (selected_files E dir n).
Proof.
  intros Hn. unfold random_sample, selected_files, selected_positions, available.
  destruct (Z.ltb_spec (Z.min n (Z.of_nat (length (glob_yaml E dir)))) 0); [lia|].
  destruct (Z.ltb_spec (Z.of_nat (length (glob_yaml E dir)))
                       (Z.min n (Z.of_nat (length (glob_yaml E dir))))); [lia|].
  reflexivity.
Qed.

Lemma random_sample_negative dir n :
  (n < 0)%Z ->
  random_sample (draws E) (glob_yaml E dir)
                (Z.min n (Z.of_nat (length (glob_yaml E dir))))
  = inl (ValueError "Sample larger than population or is negative").
Proof.
  intros Hn. unfold random_sample.
  destruct (Z.ltb_spec (Z.min n (Z.of_nat (length (glob_yaml E dir)))) 0); [|lia].
  reflexivity.
Qed.

Lemma parsed_app l1 l2 : parsed (l1 ++ l2) = (parsed l1 ++ parsed l2)%list.
Proof. unfold parsed. apply flat_map_app. Qed.

Lemma parsed_well_formed : forall selected,
  Forall (fun d => exists persona, d_load d = inr persona) selected ->
  Forall2 (fun d persona => d_load d = inr persona) selected (parsed selected).
Proof.
  induction 1 as [|d rest Hd _ IH]; simpl.
  - constructor.
  - destruct Hd as [persona Hd]. rewrite Hd. simpl. constructor; assumption.
Qed.

Lemma load_events_no_call dir : forall selected req res,
  ~ In (Create req res) (load_events dir selected).
Proof.
  induction selected as [|d rest IH]; intros req res; [simpl; tauto|].
  change (load_events dir (d :: rest))
    with (file_events dir d ++ load_events dir rest)%list.
  rewrite in_app_iff. intros [H|H]; [|eapply IH; eauto].
  unfold file_events in H. apply in_inv in H. destruct H as [H|H]; [discriminate|].
  destruct (d_load d) as [e|p]; [|destruct (subscript p "name")];
    apply in_inv in H; destruct H as [H|[]]; discriminate.
Qed.
End Loader.

(** ** Sequencing *)

Lemma bind_lift A B (r : result A) (k : A -> M B) h :
  bind (lift r) k h = match r with
                      | inl e => ([], inl e)
                      | inr a => k a h
                      end.
Proof.
  unfold bind, lift. destruct r as [e|a]; [reflexivity|].
  rewrite app_nil_r. destruct (k a h); reflexivity.
Qed.

Lemma bind_log A lvl text fields (k : unit -> M A) h :
  bind (log lvl text fields) k h
  = let (ev, r) := k tt (h ++ [Log lvl text fields])%list in
    (Log lvl text fields :: ev, r).
Proof. reflexivity. Qed.

Lemma bind_ret A B (a : A) (k : A -> M B) h : bind (ret a) k h = k a h.
Proof. apply (bind_lift (inr a)). Qed.

Lemma bind_bind A B C (m : M A) (k : A -> M B) (k' : B -> M C) h :
  bind (bind m k) k' h = bind m (fun a => bind (k a) k') h.
Proof.
  unfold bind. destruct (m h) as [ev [e|a]]; [reflexivity|].
  destruct (k a (h ++ ev)%list) as [ev1 [e|b]]; [reflexivity|].
  rewrite app_assoc. destruct (k' b ((h ++ ev) ++ ev1)%list) as [ev2 r].
  rewrite app_assoc. reflexivity.
Qed.

(** ** The completion wrappers *)

Section Wrappers.
Variable E : env.

Lemma format_persona_for_prompt_eq persona h :
  format_persona_for_prompt E persona h =
  match subscript persona "name" with
  | inl e => ([], inl e)
  | inr name => ([Log DEBUG "Formatting prompt for persona: {}" [FVal name]],
                 persona_text E persona)
  end.
Proof.
  unfold format_persona_for_prompt. rewrite bind_lift.
  destruct (subscript persona "name"); reflexivity.
Qed.

Lemma get_individual_response_eq persona question h :
  get_individual_response E persona question h =
  match subscript persona "name" with
  | inl e => ([], inl e)
  | inr name =>
      let asked := [Log INFO "Getting individual response from persona: {}" [FVal name];
                    Log DEBUG "Formatting prompt for persona: {}" [FVal name]] in
      match persona_text E persona with
      | inl e => (asked, inl e)
      | inr formatted =>
          let req := individual_request formatted question in
          match completion E (h ++ asked) req with
          | inl e =>
              ((asked ++ [Create req (inl e);
                          Log ERROR "Error getting response for {}: {}"
                              [FVal name; FExn e]])%list, inl e)
          | inr response =>
              ((asked ++ [Create req (inr response);
                          Log DEBUG "Received response for {}" [FVal name]])%list,
               inr response)
          end
      end
  end.
Proof.
  unfold get_individual_response. rewrite bind_lift.
  destruct (subscript persona "name") as [e|name] eqn:Hname; [reflexivity|].
  rewrite bind_log. unfold bind at 1. rewrite format_persona_for_prompt_eq, Hname.
  destruct (persona_text E persona) as [e|formatted]; [reflexivity|].
  unfold try_except, bind, chat_create, log, ret, raise. simpl.
  rewrite <- app_assoc. simpl.
  destruct (completion E _ _); reflexivity.
Qed.

Lemma get_collective_response_eq persona question others h :
  get_collective_response E persona question others h =
  match subscript persona "name" with
  | inl e => ([], inl e)
  | inr name =>
      let asked := [Log INFO "Getting collective response from persona: {}" [FVal name];
                    Log DEBUG "Formatting prompt for persona: {}" [FVal name]] in
      match persona_text E persona with
      | inl e => (asked, inl e)
      | inr formatted =>
          let req := collective_request formatted question others in
          match completion E (h ++ asked) req with
          | inl e =>
              ((asked ++ [Create req (inl e);
                          Log ERROR "Error getting collective response for {}: {}"
                              [FVal name; FExn e]])%list, inl e)
          | inr response =>
              ((asked ++ [Create req (inr response);
                          Log DEBUG "Received collective response for {}" [FVal name]])%list,
               inr response)
          end
      end
  end.
Proof.
  unfold get_collective_response. rewrite bind_lift.
  destruct (subscript persona "name") as [e|name] eqn:Hname; [reflexivity|].
  rewrite bind_log. unfold bind at 1. rewrite format_persona_for_prompt_eq, Hname.
  destruct (persona_text E persona) as [e|formatted]; [reflexivity|].
  unfold try_except, bind, chat_create, log, ret, raise. simpl.
  rewrite <- app_assoc. simpl.
  destruct (completion E _ _); reflexivity.
Qed.
End Wrappers.

(** ** Dictionary keys *)

Lemma raw_eqb_eq a b : raw_eqb a b = true <-> a = b.
Proof.
  destruct a, b; simpl; split; intros H; try discriminate; try reflexivity.
  - apply Bool.eqb_prop in H. congruence.
  - inversion H. apply Bool.eqb_reflx.
  - apply Z.eqb_eq in H. congruence.
  - inversion H. apply Z.eqb_refl.
  - apply String.eqb_eq in H. congruence.
  - inversion H. apply String.eqb_refl.
Qed.

Lemma scalar_eqb_norm a b : scalar_eqb a b = true <-> norm a = norm b.
Proof. apply raw_eqb_eq. Qed.

Lemma scalar_eqb_refl a : scalar_eqb a a = true.
Proof. apply scalar_eqb_norm. reflexivity. Qed.

Lemma scalar_eqb_sym a b : scalar_eqb a b = scalar_eqb b a.
Proof.
  destruct (scalar_eqb a b) eqn:H1, (scalar_eqb b a) eqn:H2; try reflexivity.
  - apply scalar_eqb_norm in H1. symmetry in H1.
    apply scalar_eqb_norm in H1. congruence.
  - apply scalar_eqb_norm in H2. symmetry in H2.
    apply scalar_eqb_norm in H2. congruence.
Qed.

Lemma existsb_scalar k ks :
  existsb (fun k' => scalar_eqb k' k) ks = true <-> In (norm k) (map norm ks).
Proof.
  rewrite existsb_exists, in_map_iff. split.
  - intros (x & Hx & Heq). apply scalar_eqb_norm in Heq. eauto.
  - intros (x & Heq & Hx). exists x. split; auto. apply scalar_eqb_norm; assumption.
Qed.

Lemma distinct_keys_NoDup ks : distinct_keys ks = true <-> NoDup (map norm ks).
Proof.
  induction ks as [|k ks IH]; simpl.
  - split; [constructor | reflexivity].
  - rewrite andb_true_iff, negb_true_iff, IH, NoDup_cons_iff.
    rewrite <- existsb_scalar.
    destruct (existsb (fun k' => scalar_eqb k' k) ks); intuition congruence.
Qed.

Lemma keys_dict_set : forall d k v, keys (dict_set d k v) = add_key (keys d) k.
Proof.
  unfold add_key, keys. induction d as [|[k' v'] d IH]; intros k v; simpl.
  - reflexivity.
  - destruct (scalar_eqb k' k); simpl; [reflexivity|].
    rewrite IH. destruct (existsb _ (map fst d)); reflexivity.
Qed.

Lemma dict_set_fresh : forall d k v,
  ~ In (norm k) (map norm (keys d)) -> dict_set d k v = (d ++ [(k, v)])%list.
Proof.
  induction d as [|[k' v'] d IH]; intros k v Hk; simpl in *.
  - reflexivity.
  - destruct (scalar_eqb k' k) eqn:Heq.
    + apply scalar_eqb_norm in Heq. tauto.
    + rewrite IH; tauto.
Qed.

Lemma add_keys_distinct : forall ks acc,
  NoDup (map norm (acc ++ ks)) -> fold_left add_key ks acc = (acc ++ ks)%list.
Proof.
  induction ks as [|k ks IH]; intros acc Hnd; simpl.
  - rewrite app_nil_r. reflexivity.
  - assert (Hacc : add_key acc k = (acc ++ [k])%list).
    { unfold add_key. destruct (existsb _ acc) eqn:Hex; [|reflexivity].
      apply existsb_scalar in Hex. rewrite map_app in Hnd. simpl in Hnd.
      apply NoDup_remove_2 in Hnd. elim Hnd. apply in_or_app. tauto. }
    rewrite Hacc, IH; rewrite <- app_assoc; [reflexivity | exact Hnd].
Qed.

Lemma filter_other_keys : forall (d : dict) i k v,
  NoDup (map norm (keys d)) ->
  nth_error d i = Some (k, v) ->
  filter (fun kv => negb (scalar_eqb (fst kv) k)) d = remove_nth i d.
Proof.
  induction d as [|[k0 v0] d IH]; intros [|i] k v Hnd Hi; simpl in *; try discriminate.
  - inversion Hi; subst k0 v0. rewrite scalar_eqb_refl. simpl.
    apply NoDup_cons_iff in Hnd. destruct Hnd as [Hk _].
    clear IH Hi. induction d as [|[k1 v1] d IHd]; simpl in *; [reflexivity|].
    destruct (scalar_eqb k1 k) eqn:Heq.
    + apply scalar_eqb_norm in Heq. elim Hk. left. assumption.
    + simpl. f_equal. apply IHd. tauto.
  - apply NoDup_cons_iff in Hnd. destruct Hnd as [Hk Hnd].
    destruct (scalar_eqb k0 k) eqn:Heq.
    + apply scalar_eqb_norm in Heq. elim Hk. rewrite Heq.
      apply in_map, (in_map fst _ (k, v)). eapply nth_error_In; eauto.
    + simpl. f_equal. eapply IH; eauto.
Qed.

(** ** Calls in a list of events *)

Lemma calls_to_app m evs evs' :
  calls_to m evs -> calls_to m evs' -> calls_to m (evs ++ evs').
Proof.
  intros H H' req res Hin. apply in_app_or in Hin. destruct Hin; eauto.
Qed.

Lemma calls_to_other m m' : forall evs,
  calls_to m evs -> m <> m' -> requests_to m' evs = [].
Proof.
  induction evs as [|ev evs IH]; intros H Hm; simpl; [reflexivity|].
  rewrite IH; [|intros req res Hin; apply (H req res); right; assumption|assumption].
  destruct ev as [lvl text fields|req res]; [reflexivity|].
  destruct (String.eqb_spec (model req) m'); [|reflexivity].
  elim Hm. rewrite <- (H req res); [assumption | left; reflexivity].
Qed.

Lemma requests_to_app m evs evs' :
  requests_to m (evs ++ evs') = (requests_to m evs ++ requests_to m evs')%list.
Proof. apply flat_map_app. Qed.

Lemma answers_of_app m evs evs' :
  answers_of m (evs ++ evs') = (answers_of m evs ++ answers_of m evs')%list.
Proof. apply flat_map_app. Qed.

Lemma requests_to_log m lvl text fields evs :
  requests_to m (Log lvl text fields :: evs) = requests_to m evs.
Proof. reflexivity. Qed.

Lemma answers_of_log m lvl text fields evs :
  answers_of m (Log lvl text fields :: evs) = answers_of m evs.
Proof. reflexivity. Qed.

Lemma requests_to_nil m : requests_to m [] = [].
Proof. reflexivity. Qed.

Lemma answers_of_nil m : answers_of m [] = [].
Proof. reflexivity. Qed.

Create Rewrite HintDb calls.
#[local] Hint Rewrite requests_to_app answers_of_app requests_to_log answers_of_log
  requests_to_nil answers_of_nil : calls.

(** ** The two rounds *)

Section Rounds.
Variable E : env.

Ltac wrapper_cases H :=
  destruct (subscript _ "name") as [?e|?name] eqn:?Hname;
  [|cbv zeta in H;
    destruct (persona_text E _) as [?e|?formatted] eqn:?Htext;
    [|cbv zeta in H;
      destruct (completion E _ _) as [?e|?response] eqn:?Hanswer]];
  inversion H; subst; clear H.

Lemma get_individual_response_inv persona question h ev out :
  get_individual_response E persona question h = (ev, out) ->
  calls_to "gpt-4" ev
  /\ (forall req e, In (Create req (inl e)) ev -> out = inl e)
  /\ (forall response, out = inr response ->
      exists name formatted,
        subscript persona "name" = inr name
        /\ persona_text E persona = inr formatted
        /\ requests_to "gpt-4" ev = [individual_request formatted question]
        /\ answers_of "gpt-4" ev = [response]).
Proof.
  rewrite get_individual_response_eq. intros H. wrapper_cases H.
  all: repeat split;
    try (intros req res Hin; simpl in Hin;
         repeat (destruct Hin as [Hin|Hin]; try discriminate; try contradiction);
         inversion Hin; subst; reflexivity);
    try (intros response Hout; discriminate Hout).
  intros response' Hout. inversion Hout; subst. eauto 6.
Qed.

Lemma get_collective_response_inv persona question others h ev out :
  get_collective_response E persona question others h = (ev, out) ->
  calls_to "gpt-4o-mini" ev
  /\ (forall response, out = inr response ->
      exists name formatted,
        subscript persona "name" = inr name
        /\ persona_text E persona = inr formatted
        /\ requests_to "gpt-4o-mini" ev
           = [collective_request formatted question others]).
Proof.
  rewrite get_collective_response_eq. intros H. wrapper_cases H.
  all: repeat split;
    try (intros req res Hin; simpl in Hin;
         repeat (destruct Hin as [Hin|Hin]; try discriminate; try contradiction);
         inversion Hin; subst; reflexivity);
    try (intros response Hout; discriminate Hout).
  intros response' Hout. inversion Hout; subst. eauto 6.
Qed.

Lemma individual_phase_cons persona rest question responses h :
  individual_phase E (persona :: rest) question responses h =
  match get_individual_response E persona question h with
  | (ev, inl e) => (ev, inl e)
  | (ev, inr response) =>
      match subscript persona "name" with
      | inl e => (ev, inl e)
      | inr name =>
          match as_key name with
          | inl e => (ev, inl e)
          | inr k =>
              let (ev', r) := individual_phase E rest question
                                (dict_set responses k response) (h ++ ev)%list in
              ((ev ++ ev')%list, r)
          end
      end
  end.
Proof.
  simpl. unfold bind at 1.
  destruct (get_individual_response E persona question h) as [ev [e|response]];
    [reflexivity|].
  rewrite bind_lift. destruct (subscript persona "name") as [e|name];
    [rewrite app_nil_r; reflexivity|].
  rewrite bind_lift. unfold dict_store, rbind.
  destruct (as_key name) as [e|k]; [rewrite app_nil_r; reflexivity|].
  reflexivity.
Qed.

Lemma collective_phase_cons persona rest question individual responses h :
  collective_phase E (persona :: rest) question individual responses h =
  match other_responses individual persona with
  | inl e => ([], inl e)
  | inr others =>
      match get_collective_response E persona question others h with
      | (ev, inl e) => (ev, inl e)
      | (ev, inr response) =>
          match subscript persona "name" with
          | inl e => (ev, inl e)
          | inr name =>
              match as_key name with
              | inl e => (ev, inl e)
              | inr k =>
                  let (ev', r) := collective_phase E rest question individual
                                    (dict_set responses k response) (h ++ ev)%list in
                  ((ev ++ ev')%list, r)
              end
          end
      end
  end.
Proof.
  simpl. rewrite bind_lift.
  destruct (other_responses individual persona) as [e|others]; [reflexivity|].
  unfold bind at 1.
  destruct (get_collective_response E persona question others h)
    as [ev [e|response]]; [reflexivity|].
  rewrite bind_lift. destruct (subscript persona "name") as [e|name];
    [rewrite app_nil_r; reflexivity|].
  rewrite bind_lift. unfold dict_store, rbind.
  destruct (as_key name) as [e|k]; [rewrite app_nil_r; reflexivity|].
  reflexivity.
Qed.

Lemma individual_phase_calls : forall personas question responses h evs out,
  individual_phase E personas question responses h = (evs, out) ->
  calls_to "gpt-4" evs
  /\ (forall req e, In (Create req (inl e)) evs -> out = inl e).
Proof.
  induction personas as [|persona rest IH]; intros question responses h evs out H.
  - inversion H; subst. split; intros req res Hin; elim Hin.
  - rewrite individual_phase_cons in H.
    destruct (get_individual_response E persona question h) as [ev r] eqn:Hone.
    pose proof Hone as Hinv. apply get_individual_response_inv in Hinv. destruct Hinv as (Hcalls & Hfail & _).
    destruct r as [e|response];
      [inversion H; subst; split; [assumption|]; intros req e0 Hin;
       generalize (Hfail req e0 Hin); congruence|].
    destruct (subscript persona "name") as [e|name];
      [inversion H; subst; split; [auto|]; intros req e' Hin;
       discriminate (Hfail req e' Hin)|].
    destruct (as_key name) as [e|k];
      [inversion H; subst; split; [auto|]; intros req e' Hin;
       discriminate (Hfail req e' Hin)|].
    destruct (individual_phase E rest question _ _) as [ev' r'] eqn:Hrest.
    inversion H; subst. destruct (IH _ _ _ _ _ Hrest) as (Hcalls' & Hfail').
    split; [apply calls_to_app; assumption|].
    intros req e Hin. apply in_app_or in Hin. destruct Hin as [Hin|Hin]; eauto.
    discriminate (Hfail req e Hin).
Qed.

Lemma collective_phase_calls : forall personas question individual responses h evs out,
  collective_phase E personas question individual responses h = (evs, out) ->
  calls_to "gpt-4o-mini" evs.
Proof.
  induction personas as [|persona rest IH];
    intros question individual responses h evs out H.
  - inversion H; subst. intros req res Hin; elim Hin.
  - rewrite collective_phase_cons in H.
    destruct (other_responses individual persona) as [e|others];
      [inversion H; subst; intros req res Hin; elim Hin|].
    destruct (get_collective_response E persona question others h) as [ev r] eqn:Hone.
    pose proof Hone as Hinv. apply get_collective_response_inv in Hinv. destruct Hinv as (Hcalls & _).
    destruct r as [e|response]; [inversion H; subst; auto|].
    destruct (subscript persona "name") as [e|name]; [inversion H; subst; auto|].
    destruct (as_key name) as [e|k]; [inversion H; subst; auto|].
    destruct (collective_phase E rest question individual _ _) as [ev' r'] eqn:Hrest.
    inversion H; subst. apply calls_to_app; eauto.
Qed.
End Rounds.

Section Rounds_ok.
Local Open Scope list_scope.
Variable E : env.

Lemma run_rounds_eq personas question h :
  run_rounds E personas question h =
  let start := Log INFO "Starting first iteration: Individual responses" [] in
  match individual_phase E personas question [] (h ++ [start]) with
  | (ev1, inl e) => (start :: ev1, inl e)
  | (ev1, inr individual) =>
      let middle :=
        [Log INFO "Completed individual responses for {} personas"
             [FInt (Z.of_nat (length individual))];
         Log INFO "Starting second iteration: Collective responses" []] in
      match collective_phase E personas question individual []
              (h ++ start :: ev1 ++ middle) with
      | (ev2, inl e) => ((start :: ev1 ++ middle ++ ev2)%list, inl e)
      | (ev2, inr collective) =>
          ((start :: ev1 ++ middle ++ ev2
              ++ [Log INFO "Completed collective responses for {} personas"
                      [FInt (Z.of_nat (length collective))];
                  Log INFO "Completed persona simulation run" []])%list,
           inr {| individual_responses := individual;
                  collective_responses := collective |})
      end
  end.
Proof.
  unfold run_rounds. rewrite bind_log. unfold bind at 1.
  destruct (individual_phase E personas question [] _) as [ev1 [e|individual]];
    [reflexivity|].
  rewrite !bind_log. unfold bind at 1. rewrite <- !app_assoc. simpl.
  destruct (collective_phase E personas question individual [] _)
    as [ev2 [e|collective]]; [reflexivity|].
  reflexivity.
Qed.

Lemma run_eq question num_personas agents_dir h :
  run E question num_personas agents_dir h =
  let prelude := run_prelude question num_personas in
  match client_error E with
  | Some e => (prelude, inl e)
  | None =>
      match load_personas E (personas_dir_of agents_dir) num_personas (h ++ prelude) with
      | (evl, inl e) => (prelude ++ evl, inl e)
      | (evl, inr personas) =>
          let (evr, out) := run_rounds E personas question (h ++ prelude ++ evl) in
          (prelude ++ evl ++ evr, out)
      end
  end.
Proof.
  unfold run. rewrite !bind_log. unfold new_client, bind at 1.
  destruct (client_error E) as [e|]; [reflexivity|].
  unfold ret at 1. rewrite app_nil_r. unfold bind at 1.
  rewrite <- !app_assoc. simpl.
  destruct (load_personas E _ _ _) as [evl [e|personas]]; [reflexivity|].
  rewrite <- !app_assoc. simpl.
  destruct (run_rounds E personas question _) as [evr out]. reflexivity.
Qed.

Lemma load_personas_history dir n h h' :
  load_personas E dir n h = load_personas E dir n h'.
Proof. rewrite !load_personas_eq. reflexivity. Qed.

Lemma names_cons persona rest k :
  name_key persona = Some k -> names (persona :: rest) = k :: names rest.
Proof. intros H. unfold names. simpl. rewrite H. reflexivity. Qed.

Lemma name_key_stored persona name k :
  subscript persona "name" = inr name -> as_key name = inr k ->
  name_key persona = Some k.
Proof.
  intros Hname Hk. unfold name_key. rewrite Hname.
  destruct name; simpl in Hk; congruence.
Qed.

Lemma individual_phase_ok : forall personas question responses h evs d,
  individual_phase E personas question responses h = (evs, inr d) ->
  length (names personas) = length personas
  /\ keys d = fold_left add_key (names personas) (keys responses)
  /\ length (answers_of "gpt-4" evs) = length personas
  /\ Forall2 (fun persona req =>
                exists formatted, persona_text E persona = inr formatted
                                  /\ req = individual_request formatted question)
             personas (requests_to "gpt-4" evs)
  /\ (NoDup (map norm (keys responses ++ names personas)) ->
      d = responses ++ combine (names personas) (answers_of "gpt-4" evs)).
Proof.
  induction personas as [|persona rest IH]; intros question responses h evs d H.
  - inversion H; subst. simpl.
    split; [reflexivity|]. split; [reflexivity|]. split; [reflexivity|].
    split; [constructor|]. intros _. rewrite app_nil_r. reflexivity.
  - rewrite individual_phase_cons in H.
    destruct (get_individual_response E persona question h) as [ev r] eqn:Hone.
    pose proof Hone as Hinv. apply get_individual_response_inv in Hinv. destruct Hinv as (_ & _ & Hok).
    destruct r as [e|response]; [discriminate|].
    destruct (Hok response eq_refl) as (name & formatted & Hname & Htext & Hreq & Hans).
    rewrite Hname in H. destruct (as_key name) as [e|k] eqn:Hk; [discriminate|].
    destruct (individual_phase E rest question _ _) as [ev' r'] eqn:Hrest.
    inversion H; subst.
    destruct (IH _ _ _ _ _ Hrest) as (Hlen & Hkeys & Hanswers & Hreqs & Hdistinct).
    assert (Hkey : name_key persona = Some k)
      by (eapply name_key_stored; eassumption).
    rewrite (@names_cons persona rest k Hkey).
    rewrite answers_of_app, requests_to_app, Hreq, Hans. simpl.
    repeat split.
    + congruence.
    + rewrite Hkeys, keys_dict_set. reflexivity.
    + congruence.
    + constructor; eauto.
    + intros Hnd. unfold keys in *.
      assert (Hfresh : ~ In (norm k) (map norm (map fst responses))).
      { rewrite map_app in Hnd. simpl in Hnd. apply NoDup_remove_2 in Hnd.
        intro Hin. apply Hnd. apply in_or_app. tauto. }
      rewrite (@dict_set_fresh responses k response Hfresh) in *.
      rewrite Hdistinct.
      * rewrite <- app_assoc. reflexivity.
      * rewrite (map_app fst), <- app_assoc. exact Hnd.
Qed.

Lemma collective_phase_ok : forall personas question individual responses h evs d,
  collective_phase E personas question individual responses h = (evs, inr d) ->
  keys d = fold_left add_key (names personas) (keys responses)
  /\ Forall2 (fun persona req =>
                exists formatted others,
                  persona_text E persona = inr formatted
                  /\ other_responses individual persona = inr others
                  /\ req = collective_request formatted question others)
             personas (requests_to "gpt-4o-mini" evs).
Proof.
  induction personas as [|persona rest IH];
    intros question individual responses h evs d H.
  - inversion H; subst. simpl. split; [reflexivity | constructor].
  - rewrite collective_phase_cons in H.
    destruct (other_responses individual persona) as [e|others] eqn:Hothers;
      [discriminate|].
    destruct (get_collective_response E persona question others h) as [ev r] eqn:Hone.
    pose proof Hone as Hinv. apply get_collective_response_inv in Hinv. destruct Hinv as (_ & Hok).
    destruct r as [e|response]; [discriminate|].
    destruct (Hok response eq_refl) as (name & formatted & Hname & Htext & Hreq).
    rewrite Hname in H. destruct (as_key name) as [e|k] eqn:Hk; [discriminate|].
    destruct (collective_phase E rest question individual _ _) as [ev' r'] eqn:Hrest.
    inversion H; subst.
    destruct (IH _ _ _ _ _ _ Hrest) as (Hkeys & Hreqs).
    assert (Hkey : name_key persona = Some k)
      by (eapply name_key_stored; eassumption).
    rewrite (@names_cons persona rest k Hkey).
    rewrite requests_to_app, Hreq. simpl. split.
    + rewrite Hkeys, keys_dict_set. reflexivity.
    + constructor; eauto.
Qed.

Lemma names_length_le : forall personas, length (names personas) <= length personas.
Proof.
  induction personas as [|persona rest IH]; simpl; [lia|].
  unfold names in *. simpl. rewrite length_app.
  destruct (name_key persona); simpl; lia.
Qed.

Lemma names_nth : forall personas i persona,
  length (names personas) = length personas ->
  nth_error personas i = Some persona ->
  exists k, name_key persona = Some k /\ nth_error (names personas) i = Some k.
Proof.
  induction personas as [|p rest IH]; intros [|i] persona Hlen Hi;
    simpl in Hi; try discriminate.
  - inversion Hi; subst p. pose proof (names_length_le rest) as Hle.
    unfold names in *. simpl in *. rewrite length_app in Hlen.
    destruct (name_key persona) as [k|]; simpl in *; [eauto | lia].
  - pose proof (names_length_le rest) as Hle.
    assert (Hp : exists k, name_key p = Some k).
    { unfold names in *. simpl in Hlen. rewrite length_app in Hlen.
      destruct (name_key p) as [k|]; simpl in *; [eauto | lia]. }
    destruct Hp as [k0 Hk0]. rewrite (@names_cons p rest k0 Hk0) in *.
    simpl in *. apply IH; [lia | assumption].
Qed.

Lemma map_remove_nth A B (f : A -> B) : forall l i,
  map f (remove_nth i l) = remove_nth i (map f l).
Proof.
  induction l as [|a l IH]; intros [|i]; simpl; try reflexivity.
  rewrite IH. reflexivity.
Qed.

(** With pairwise different names, the peers of the persona at position
    [i] are all the answers but the one at position [i]. *)
Lemma other_responses_distinct individual personas i persona :
  keys individual = names personas ->
  length (names personas) = length personas ->
  NoDup (map norm (names personas)) ->
  nth_error personas i = Some persona ->
  other_responses individual persona = inr (remove_nth i (values individual)).
Proof.
  intros Hkeys Hlen Hnd Hi.
  destruct (@names_nth personas i persona Hlen Hi) as (k & Hk & Hnth).
  rewrite <- Hkeys in Hnth, Hnd. unfold keys in Hnth.
  rewrite nth_error_map in Hnth.
  destruct (nth_error individual i) as [[k' v]|] eqn:Hkv; [|discriminate].
  simpl in Hnth. inversion Hnth; subst k'.
  unfold other_responses. destruct individual as [|kv0 rest0] eqn:Hind;
    [destruct i; discriminate|].
  rewrite <- Hind in *. unfold name_key in Hk.
  destruct (subscript persona "name") as [e|[k1| |]]; try discriminate.
  inversion Hk; subst k1. simpl. unfold values.
  rewrite (@filter_other_keys individual i k v Hnd Hkv), map_remove_nth. reflexivity.
Qed.
End Rounds_ok.

(** ** The whole run *)

Section Run.
Variable E : env.
Local Open Scope list_scope.

Lemma Forall2_nth_error A B (R : A -> B -> Prop) : forall l l' i a,
  Forall2 R l l' -> nth_error l i = Some a ->
  exists b, nth_error l' i = Some b /\ R a b.
Proof.
  intros l l' i a H. revert i a.
  induction H as [|x y l l' Hxy _ IH]; intros [|i] a Hi; simpl in *;
    try discriminate.
  - inversion Hi; subst. eauto.
  - eauto.
Qed.

Lemma no_call_requests m : forall evs,
  (forall req res, ~ In (Create req res) evs) ->
  requests_to m evs = [] /\ answers_of m evs = [].
Proof.
  induction evs as [|ev evs IH]; intros H; simpl; [split; reflexivity|].
  destruct IH as [IH1 IH2]; [intros req res Hin; apply (H req res); right; assumption|].
  rewrite IH1, IH2.
  destruct ev as [lvl text fields|req res]; [split; reflexivity|].
  elim (H req res). left. reflexivity.
Qed.

Lemma calls_to_other_answers m m' : forall evs,
  calls_to m evs -> m <> m' -> answers_of m' evs = [].
Proof.
  induction evs as [|ev evs IH]; intros H Hm; simpl; [reflexivity|].
  rewrite IH; [|intros req res Hin; apply (H req res); right; assumption|assumption].
  destruct ev as [lvl text fields|req [e|text]]; try reflexivity.
  destruct (String.eqb_spec (model req) m'); [|reflexivity].
  elim Hm. rewrite <- (H req (inr text)); [assumption | left; reflexivity].
Qed.

Lemma load_personas_no_call dir n h evl r :
  load_personas E dir n h = (evl, r) ->
  forall req res, ~ In (Create req res) evl.
Proof.
  rewrite load_personas_eq. cbv zeta.
  destruct (random_sample _ _ _) as [e|selected]; intros H; inversion H; subst;
    intros req res Hin.
  - simpl in Hin. intuition discriminate.
  - simpl in Hin. destruct Hin as [Hin|[Hin|Hin]]; try discriminate.
    apply in_app_or in Hin. destruct Hin as [Hin|Hin].
    + revert Hin. apply load_events_no_call.
    + simpl in Hin. intuition discriminate.
Qed.

Lemma prelude_no_call question n req res :
  ~ In (Create req res) (run_prelude question n).
Proof. simpl. intuition discriminate. Qed.

(** A run that returns went through both rounds; its calls are those of
    the two loops. *)
Lemma run_inv question n agents_dir h evs r personas :
  snd (load_personas E (personas_dir_of agents_dir) n h) = inr personas ->
  run E question n agents_dir h = (evs, inr r) ->
  exists h1 ev1 h2 ev2,
    individual_phase E personas question [] h1 = (ev1, inr (individual_responses r))
    /\ collective_phase E personas question (individual_responses r) [] h2
       = (ev2, inr (collective_responses r))
    /\ requests_to "gpt-4" evs = requests_to "gpt-4" ev1
    /\ answers_of "gpt-4" evs = answers_of "gpt-4" ev1
    /\ requests_to "gpt-4o-mini" evs = requests_to "gpt-4o-mini" ev2.
Proof.
  intros Hload Hrun. rewrite run_eq in Hrun. cbv zeta in Hrun.
  destruct (client_error E); [discriminate|].
  rewrite (load_personas_history E _ _ _ h) in Hrun.
  destruct (load_personas E (personas_dir_of agents_dir) n h) as [evl rl] eqn:Hl.
  simpl in Hload. subst rl.
  rewrite run_rounds_eq in Hrun. cbv zeta in Hrun.
  destruct (individual_phase E personas question [] _) as [ev1 [e|individual]] eqn:H1;
    [discriminate|].
  destruct (collective_phase E personas question individual [] _)
    as [ev2 [e|collective]] eqn:H2; [discriminate|].
  inversion Hrun; subst. simpl.
  do 4 eexists. split; [exact H1|]. split; [exact H2|].
  assert (Hnone : forall req res, ~ In (Create req res) evl)
    by (eapply load_personas_no_call; exact Hl).
  pose proof H1 as Hc1. apply individual_phase_calls in Hc1. destruct Hc1 as [Hc1 _].
  pose proof H2 as Hc2. apply collective_phase_calls in Hc2.
  assert (Hneq : "gpt-4" <> "gpt-4o-mini") by discriminate.
  assert (Hneq' : "gpt-4o-mini" <> "gpt-4") by discriminate.
  destruct (@no_call_requests "gpt-4" evl Hnone) as [Hr Ha].
  destruct (@no_call_requests "gpt-4o-mini" evl Hnone) as [Hr' _].
  autorewrite with calls.
  rewrite Hr, Ha, Hr'.
  rewrite (@calls_to_other _ _ ev2 Hc2 Hneq'), (@calls_to_other_answers _ _ ev2 Hc2 Hneq'),
          (@calls_to_other _ _ ev1 Hc1 Hneq).
  simpl. rewrite !app_nil_r. auto.
Qed.
End Run.

(** * The claims *)

Local Open Scope list_scope.

(** ** C1 *)

(** C1.  When a run returns a result, the two mappings have the same keys
    in the same order, so every key of [collective_responses] is a key of
    [individual_responses]; every loaded persona has a name, and with the
    names pairwise different, as the data model has them, each mapping has
    exactly as many entries as personas were loaded. *)
Theorem run_response_keys (E : env) question n agents_dir h evs r personas :
  snd (load_personas E (personas_dir_of agents_dir) n h) = inr personas ->
  run E question n agents_dir h = (evs, inr r) ->
  keys (collective_responses r) = keys (individual_responses r)
  /\ (forall k, In k (keys (collective_responses r)) ->
                In k (keys (individual_responses r)))
  /\ keys (individual_responses r) = fold_left add_key (names personas) []
  /\ length (names personas) = length personas
  /\ (distinct_keys (names personas) = true ->
      length (individual_responses r) = length personas
      /\ length (collective_responses r) = length personas).
Proof.
  intros Hload Hrun.
  destruct (@run_inv E _ _ _ _ _ _ _ Hload Hrun) as (h1 & ev1 & h2 & ev2 & H1 & H2 & _).
  apply individual_phase_ok in H1. destruct H1 as (Hlen & Hk1 & _).
  apply collective_phase_ok in H2. destruct H2 as (Hk2 & _).
  simpl in Hk1, Hk2.
  assert (Hsame : keys (collective_responses r) = keys (individual_responses r))
    by congruence.
  split; [exact Hsame|]. split; [rewrite Hsame; auto|].
  split; [exact Hk1|]. split; [exact Hlen|].
  intros Hdistinct. apply distinct_keys_NoDup in Hdistinct.
  assert (Hcount : length (keys (individual_responses r)) = length personas).
  { rewrite Hk1, add_keys_distinct by exact Hdistinct. exact Hlen. }
  assert (Hcount' : length (keys (collective_responses r)) = length personas)
    by (rewrite Hsame; exact Hcount).
  unfold keys in Hcount, Hcount'. rewrite length_map in Hcount, Hcount'. auto.
Qed.

Lemma run_response_keys_witness :
  exists evs r,
    run three_panel "Q" 2 None [] = (evs, inr r)
    /\ keys (individual_responses r) = [KStr "Ana"; KStr "Bo"]
    /\ keys (collective_responses r) = keys (individual_responses r)
    /\ length (individual_responses r) = 2
    /\ length (collective_responses r) = 2.
Proof.
  exists (fst (run three_panel "Q" 2 None [])),
         {| individual_responses := [(KStr "Ana", "answer 0"); (KStr "Bo", "answer 1")];
            collective_responses := [(KStr "Ana", "answer 2"); (KStr "Bo", "answer 3")] |}.
  assert (Hload : snd (load_personas three_panel (personas_dir_of None) 2 [])
                  = inr [persona_record "Ana"; persona_record "Bo"])
    by (vm_compute; reflexivity).
  assert (Hrun : run three_panel "Q" 2 None []
                 = (fst (run three_panel "Q" 2 None []),
                    inr {| individual_responses :=
                             [(KStr "Ana", "answer 0"); (KStr "Bo", "answer 1")];
                           collective_responses :=
                             [(KStr "Ana", "answer 2"); (KStr "Bo", "answer 3")] |}))
    by (vm_compute; reflexivity).
  destruct (run_response_keys _ _ _ _ _ Hload Hrun) as (Hsame & _ & _ & _ & Hcount).
  destruct (Hcount eq_refl) as [Hi Hc].
  split; [exact Hrun|]. split; [reflexivity|]. split; [exact Hsame|].
  split; [exact Hi | exact Hc].
Defined.

(** Outside the data model, when two of the loaded personas give the same
    name: three personas are loaded and every call succeeds, and each
    mapping has two entries. *)
Lemma shared_name_two_entries :
  exists personas r,
    snd (load_personas shared_name_panel panel_dir 3 []) = inr personas
    /\ snd (run shared_name_panel "Q" 3 None []) = inr r
    /\ length personas = 3
    /\ individual_responses r = [(KStr "Ana", "answer 1"); (KStr "Bo", "answer 2")]
    /\ collective_responses r = [(KStr "Ana", "answer 4"); (KStr "Bo", "answer 5")].
Proof.
  exists [persona_record "Ana"; persona_record "Ana"; persona_record "Bo"],
         {| individual_responses := [(KStr "Ana", "answer 1"); (KStr "Bo", "answer 2")];
            collective_responses := [(KStr "Ana", "answer 4"); (KStr "Bo", "answer 5")] |}.
  repeat split; vm_compute; reflexivity.
Qed.

(** ** C2 *)

Lemma values_combine (ks : list scalar) : forall (vs : list string),
  length ks = length vs -> values (combine ks vs) = vs /\ keys (combine ks vs) = ks.
Proof.
  unfold values, keys.
  induction ks as [|k ks IH]; intros [|v vs] H; simpl in *; try discriminate; auto.
  destruct (IH vs) as [H1 H2]; [lia|]. rewrite H1, H2. auto.
Qed.

(** A run that returns, with the names of the loaded personas pairwise
    different: the first round stores the answers under the names in load
    order, and the persona at position [i] is sent, in the second round,
    the prompt built from all the first-round answers but the one at
    position [i], in load order. *)
Theorem collective_peers (E : env) question n agents_dir h evs r personas :
  snd (load_personas E (personas_dir_of agents_dir) n h) = inr personas ->
  run E question n agents_dir h = (evs, inr r) ->
  distinct_keys (names personas) = true ->
  individual_responses r = combine (names personas) (answers_of "gpt-4" evs)
  /\ length (answers_of "gpt-4" evs) = length personas
  /\ forall i persona,
       nth_error personas i = Some persona ->
       exists formatted,
         persona_text E persona = inr formatted
         /\ nth_error (requests_to "gpt-4" evs) i
            = Some (individual_request formatted question)
         /\ other_responses (individual_responses r) persona
            = inr (remove_nth i (answers_of "gpt-4" evs))
         /\ nth_error (requests_to "gpt-4o-mini" evs) i
            = Some (collective_request formatted question
                      (remove_nth i (answers_of "gpt-4" evs))).
Proof.
  intros Hload Hrun Hdistinct. apply distinct_keys_NoDup in Hdistinct.
  destruct (@run_inv E _ _ _ _ _ _ _ Hload Hrun)
    as (h1 & ev1 & h2 & ev2 & H1 & H2 & Hr1 & Ha & Hr2).
  apply individual_phase_ok in H1.
  destruct H1 as (Hlen & _ & Hanswers & Hreqs1 & Hstored).
  apply collective_phase_ok in H2. destruct H2 as (_ & Hreqs2).
  rewrite Hr1, Ha, Hr2. specialize (Hstored Hdistinct). simpl in Hstored.
  destruct (@values_combine (names personas) (answers_of "gpt-4" ev1))
    as [Hvalues Hkeys]; [congruence|].
  rewrite <- Hstored in Hvalues, Hkeys.
  split; [exact Hstored|]. split; [exact Hanswers|].
  intros i persona Hi.
  destruct (Forall2_nth_error i Hreqs1 Hi) as (req1 & Hreq1 & formatted & Htext & Heq1).
  destruct (Forall2_nth_error i Hreqs2 Hi)
    as (req2 & Hreq2 & formatted' & others & Htext' & Hothers & Heq2).
  rewrite (@other_responses_distinct _ personas i persona Hkeys Hlen Hdistinct Hi)
    in Hothers.
  rewrite Hvalues in Hothers. inversion Hothers; subst others.
  rewrite Htext in Htext'. inversion Htext'; subst formatted'.
  exists formatted. subst req1 req2.
  rewrite (@other_responses_distinct _ personas i persona Hkeys Hlen Hdistinct Hi).
  rewrite Hvalues. auto.
Qed.

Lemma collective_peers_witness :
  exists evs r,
    run three_panel "Q" 3 None [] = (evs, inr r)
    /\ answers_of "gpt-4" evs = ["answer 0"; "answer 1"; "answer 2"]
    /\ other_responses (individual_responses r) (persona_record "Bo")
       = inr ["answer 0"; "answer 2"]
    /\ nth_error (requests_to "gpt-4o-mini" evs) 1
       = Some (collective_request (sample_prompt "Bo") "Q" ["answer 0"; "answer 2"]).
Proof.
  exists (fst (run three_panel "Q" 3 None [])),
         {| individual_responses :=
              [(KStr "Ana", "answer 0"); (KStr "Bo", "answer 1"); (KStr "Cy", "answer 2")];
            collective_responses :=
              [(KStr "Ana", "answer 3"); (KStr "Bo", "answer 4"); (KStr "Cy", "answer 5")] |}.
  assert (Hload : snd (load_personas three_panel (personas_dir_of None) 3 [])
                  = inr [persona_record "Ana"; persona_record "Bo"; persona_record "Cy"])
    by (vm_compute; reflexivity).
  assert (Hrun : run three_panel "Q" 3 None []
                 = (fst (run three_panel "Q" 3 None []),
                    inr {| individual_responses :=
                             [(KStr "Ana", "answer 0"); (KStr "Bo", "answer 1");
                              (KStr "Cy", "answer 2")];
                           collective_responses :=
                             [(KStr "Ana", "answer 3"); (KStr "Bo", "answer 4");
                              (KStr "Cy", "answer 5")] |}))
    by (vm_compute; reflexivity).
  assert (Hdistinct : distinct_keys
                        (names [persona_record "Ana"; persona_record "Bo";
                                persona_record "Cy"]) = true)
    by (vm_compute; reflexivity).
  assert (Hanswers : answers_of "gpt-4" (fst (run three_panel "Q" 3 None []))
                     = ["answer 0"; "answer 1"; "answer 2"])
    by (vm_compute; reflexivity).
  destruct (proj2 (proj2 (collective_peers _ _ _ _ _ Hload Hrun Hdistinct))
              1 (persona_record "Bo") eq_refl)
    as (formatted & Htext & _ & Hothers & Hreq).
  assert (Hformatted : formatted = sample_prompt "Bo")
    by (vm_compute in Htext; inversion Htext; reflexivity).
  subst formatted. rewrite Hanswers in Hothers, Hreq.
  split; [exact Hrun|]. split; [exact Hanswers|].
  split; [exact Hothers | exact Hreq].
Defined.

(** Outside the data model, when two of the loaded personas give the same
    name: the first answer is overwritten, and the third persona is shown
    one answer out of the two of its peers. *)
Lemma shared_name_peers :
  answers_of "gpt-4" (fst (run shared_name_panel "Q" 3 None []))
  = ["answer 0"; "answer 1"; "answer 2"]
  /\ requests_to "gpt-4o-mini" (fst (run shared_name_panel "Q" 3 None []))
     = [collective_request (sample_prompt "Ana") "Q" ["answer 2"];
        collective_request (sample_prompt "Ana") "Q" ["answer 2"];
        collective_request (sample_prompt "Bo") "Q" ["answer 1"]].
Proof. split; vm_compute; reflexivity. Qed.

(** ** C3 *)

Lemma calls_to_cons_log m lvl text fields evs :
  calls_to m evs -> calls_to m (Log lvl text fields :: evs).
Proof.
  intros H req res [Hin|Hin]; [discriminate | eauto].
Qed.

Lemma run_rounds_failure (E : env) personas question h evs out req e :
  run_rounds E personas question h = (evs, out) ->
  In (Create req (inl e)) evs -> model req = "gpt-4" ->
  out = inl e /\ calls_to "gpt-4" evs.
Proof.
  rewrite run_rounds_eq. cbv zeta.
  destruct (individual_phase E personas question [] _) as [ev1 r1] eqn:H1.
  pose proof H1 as Hc1. apply individual_phase_calls in Hc1.
  destruct Hc1 as [Hc1 Hfail].
  destruct r1 as [e1|individual].
  - intros H Hin _. inversion H; subst. destruct Hin as [Hin|Hin]; [discriminate|].
    generalize (Hfail _ _ Hin). intros Heq. inversion Heq; subst.
    split; [reflexivity | apply calls_to_cons_log; assumption].
  - destruct (collective_phase E personas question individual [] _) as [ev2 r2] eqn:H2.
    pose proof H2 as Hc2. apply collective_phase_calls in Hc2.
    assert (Hcases : forall tail, (forall req' res', ~ In (Create req' res') tail) ->
              In (Create req (inl e))
                 (Log INFO "Starting first iteration: Individual responses" [] :: ev1 ++
                  [Log INFO "Completed individual responses for {} personas"
                       [FInt (Z.of_nat (length individual))];
                   Log INFO "Starting second iteration: Collective responses" []] ++
                  ev2 ++ tail) ->
              model req = "gpt-4" -> False).
    { intros tail Htail [Hin|Hin] Hmodel; [discriminate|].
      apply in_app_or in Hin. destruct Hin as [Hin|Hin];
        [discriminate (Hfail _ _ Hin)|].
      apply in_app_or in Hin. destruct Hin as [Hin|Hin];
        [simpl in Hin; intuition discriminate|].
      apply in_app_or in Hin. destruct Hin as [Hin|Hin]; [|elim (Htail _ _ Hin)].
      rewrite (Hc2 _ _ Hin) in Hmodel. discriminate. }
    destruct r2 as [e2|collective]; intros H Hin Hmodel; inversion H; subst; exfalso.
    + apply (Hcases []); [intros ? ? []| |assumption].
      rewrite app_nil_r. exact Hin.
    + eapply Hcases; [|exact Hin|assumption].
      intros req' res' Hin'. simpl in Hin'. intuition discriminate.
Qed.

(** C3.  When a call of the first round fails with [e], the run ends with
    [e] as its outcome, so it returns no result, and none of its calls was
    made by the second round. *)
Theorem individual_failure_aborts (E : env) question n agents_dir h evs out req e :
  run E question n agents_dir h = (evs, out) ->
  In (Create req (inl e)) evs ->
  model req = "gpt-4" ->
  out = inl e /\ requests_to "gpt-4o-mini" evs = [].
Proof.
  rewrite run_eq. cbv zeta.
  destruct (client_error E) as [e0|].
  - intros H Hin _. inversion H; subst. elim (prelude_no_call Hin).
  - destruct (load_personas E _ _ _) as [evl rl] eqn:Hl.
    assert (Hnone : forall req' res', ~ In (Create req' res') evl)
      by (eapply load_personas_no_call; exact Hl).
    destruct rl as [e0|personas].
    + intros H Hin _. inversion H; subst.
      do 3 (destruct Hin as [Hin|Hin]; [discriminate|]).
      elim (Hnone _ _ Hin).
    + destruct (run_rounds E personas question _) as [evr out'] eqn:Hr.
      intros H Hin Hmodel. inversion H; subst.
      do 3 (destruct Hin as [Hin|Hin]; [discriminate|]).
      apply in_app_or in Hin. destruct Hin as [Hin|Hin]; [elim (Hnone _ _ Hin)|].
      destruct (@run_rounds_failure E personas question _ evr out req e Hr Hin Hmodel)
        as [Hout Hcalls].
      split; [exact Hout|].
      assert (Hneq : "gpt-4" <> "gpt-4o-mini") by discriminate.
      destruct (@no_call_requests "gpt-4o-mini" evl Hnone) as [Hr' _].
      autorewrite with calls.
      rewrite Hr', (@calls_to_other _ _ evr Hcalls Hneq). reflexivity.
Qed.

Lemma individual_failure_aborts_witness :
  snd (run (panel_env (Some five_files) third_call_fails) "Q" 5 None [])
  = inl (OtherError "APIError" "rate limit")
  /\ requests_to "gpt-4o-mini"
       (fst (run (panel_env (Some five_files) third_call_fails) "Q" 5 None [])) = [].
Proof.
  apply (@individual_failure_aborts
           (panel_env (Some five_files) third_call_fails) "Q" 5 None []
           (fst (run (panel_env (Some five_files) third_call_fails) "Q" 5 None []))
           (snd (run (panel_env (Some five_files) third_call_fails) "Q" 5 None []))
           (individual_request (sample_prompt "Cy") "Q")
           (OtherError "APIError" "rate limit")).
  - vm_compute. reflexivity.
  - apply (nth_error_In _ 27). vm_compute. reflexivity.
  - reflexivity.
Defined.

(** ** C4 and C7 *)

Lemma load_personas_no_files (E : env) dir n h :
  glob_yaml E dir = [] -> (0 <= n)%Z ->
  load_personas E dir n h
  = ([Log INFO "Loading {} personas from {}" [FInt n; FStr dir];
      Log INFO "Found {} persona files" [FInt 0];
      Log INFO "Successfully loaded {} personas" [FInt 0]],
     inr []).
Proof.
  intros Hglob Hn. rewrite load_personas_eq, Hglob. cbv zeta. simpl length.
  replace (Z.min n (Z.of_nat 0)) with 0%Z by lia. reflexivity.
Qed.

Lemma run_after_load (E : env) question n agents_dir h evl personas :
  client_error E = None ->
  load_personas E (personas_dir_of agents_dir) n h = (evl, inr personas) ->
  run E question n agents_dir h
  = (run_prelude question n ++ evl
       ++ fst (run_rounds E personas question (h ++ run_prelude question n ++ evl)),
     snd (run_rounds E personas question (h ++ run_prelude question n ++ evl))).
Proof.
  intros Hclient Hload. rewrite run_eq, Hclient. cbv zeta.
  rewrite (load_personas_history E _ _ _ h), Hload.
  destruct (run_rounds E personas question _). reflexivity.
Qed.

(** C4, as the code has it.  With no persona file to load, a non-negative
    count and a client, [load_personas] returns the empty list and [run]
    returns a result whose two mappings are empty, without any call. *)
Theorem run_without_persona_files (E : env) question n agents_dir h :
  glob_yaml E (personas_dir_of agents_dir) = [] ->
  (0 <= n)%Z ->
  client_error E = None ->
  snd (load_personas E (personas_dir_of agents_dir) n h) = inr []
  /\ run E question n agents_dir h
     = (run_prelude question n
          ++ [Log INFO "Loading {} personas from {}"
                  [FInt n; FStr (personas_dir_of agents_dir)];
              Log INFO "Found {} persona files" [FInt 0];
              Log INFO "Successfully loaded {} personas" [FInt 0];
              Log INFO "Starting first iteration: Individual responses" [];
              Log INFO "Completed individual responses for {} personas" [FInt 0];
              Log INFO "Starting second iteration: Collective responses" [];
              Log INFO "Completed collective responses for {} personas" [FInt 0];
              Log INFO "Completed persona simulation run" []],
        inr no_result).
Proof.
  intros Hglob Hn Hclient.
  pose proof (@load_personas_no_files E _ n h Hglob Hn) as Hload.
  split; [rewrite Hload; reflexivity|].
  rewrite (@run_after_load E question _ _ _ _ _ Hclient Hload). reflexivity.
Qed.

Lemma run_without_persona_files_witness :
  snd (run (panel_env (Some []) numbered_answers) "Q" 3 None []) = inr no_result.
Proof.
  rewrite (proj2 (@run_without_persona_files
                    (panel_env (Some []) numbered_answers) "Q" 3 None []
                    eq_refl ltac:(lia) eq_refl)).
  reflexivity.
Defined.

(** C4 as stated fails: with an empty directory the aggregator returns a
    result with two empty mappings; it raises nothing. *)
Lemma empty_directory_returns :
  snd (load_personas (panel_env (Some []) numbered_answers) panel_dir 3 []) = inr []
  /\ snd (run (panel_env (Some []) numbered_answers) "Q" 3 None []) = inr no_result.
Proof. split; vm_compute; reflexivity. Qed.

(** C7, as the code has it.  A missing directory is no error: the glob
    finds nothing, and for a non-negative count [load_personas] returns
    the empty list, as it does for a directory without persona files. *)
Theorem load_personas_missing_directory (E : env) dir n h :
  listdir E dir = None ->
  (0 <= n)%Z ->
  load_personas E dir n h
  = ([Log INFO "Loading {} personas from {}" [FInt n; FStr dir];
      Log INFO "Found {} persona files" [FInt 0];
      Log INFO "Successfully loaded {} personas" [FInt 0]],
     inr []).
Proof.
  intros Hdir Hn. apply load_personas_no_files; [|exact Hn].
  unfold glob_yaml. rewrite Hdir. reflexivity.
Qed.

Lemma load_personas_missing_directory_witness :
  snd (load_personas (panel_env None numbered_answers) panel_dir 3 []) = inr [].
Proof.
  rewrite (@load_personas_missing_directory
             (panel_env None numbered_answers) panel_dir 3 [] eq_refl ltac:(lia)).
  reflexivity.
Defined.

(** C7 as stated fails: loading from a directory that does not exist
    returns the empty list. *)
Lemma missing_directory_returns :
  listdir (panel_env None numbered_answers) panel_dir = None
  /\ snd (load_personas (panel_env None numbered_answers) panel_dir 3 []) = inr [].
Proof. split; vm_compute; reflexivity. Qed.

(** ** C10 *)

(** C10.  [load_personas] raises exactly when the count is negative: then
    the sampling step raises ValueError before any file is opened; for a
    count of zero or more it returns a list. *)
Theorem load_personas_count_sign (E : env) dir n h :
  ((n < 0)%Z ->
   load_personas E dir n h
   = ([Log INFO "Loading {} personas from {}" [FInt n; FStr dir];
       Log INFO "Found {} persona files"
           [FInt (Z.of_nat (length (glob_yaml E dir)))]],
      inl (ValueError "Sample larger than population or is negative")))
  /\ ((0 <= n)%Z -> exists personas, snd (load_personas E dir n h) = inr personas).
Proof.
  rewrite load_personas_eq. cbv zeta. split; intros Hn.
  - rewrite random_sample_negative by exact Hn. reflexivity.
  - rewrite random_sample_nonneg by exact Hn. eexists. reflexivity.
Qed.

Lemma load_personas_count_sign_witness :
  snd (load_personas (three_panel) panel_dir (-1) [])
  = inl (ValueError "Sample larger than population or is negative")
  /\ exists personas,
       snd (load_personas (three_panel)
              panel_dir 0 []) = inr personas.
Proof.
  split.
  - rewrite (proj1 (@load_personas_count_sign
                      (three_panel)
                      panel_dir (-1) []) ltac:(lia)).
    reflexivity.
  - exact (proj2 (@load_personas_count_sign
                    (three_panel)
                    panel_dir 0 []) ltac:(lia)).
Defined.

(** ** C5 *)

Lemma Forall2_compose A B C (R : A -> B -> Prop) (S : B -> C -> Prop) :
  forall l1 l2 l3,
    Forall2 R l1 l2 -> Forall2 S l2 l3 ->
    Forall2 (fun a c => exists b, R a b /\ S b c) l1 l3.
Proof.
  intros l1 l2 l3 H. revert l3.
  induction H as [|a b l1 l2 Hab _ IH]; intros l3 H'; inversion H'; subst;
    constructor; eauto.
Qed.

Lemma selected_files_in_range (E : env) dir n :
  Forall2 (fun i d => nth_error (glob_yaml E dir) i = Some d)
          (selected_positions E dir n) (selected_files E dir n).
Proof.
  apply select_in_range. intros i Hi.
  apply (sampled_positions_spec (draws E) (available E dir)
           (Z.min n (Z.of_nat (available E dir)))).
  exact Hi.
Qed.

(** C5, as the code has it.  For a count of zero or more over well-formed
    files, the files are taken at pairwise different positions of the
    listing, one persona is loaded from each, in that order, and their
    number is the smaller of the count and the number of files. *)
Theorem load_personas_sample (E : env) dir n h :
  (0 <= n)%Z ->
  Forall (fun d => exists persona, d_load d = inr persona) (glob_yaml E dir) ->
  NoDup (selected_positions E dir n)
  /\ (forall i, In i (selected_positions E dir n) -> i < available E dir)
  /\ exists personas,
       snd (load_personas E dir n h) = inr personas
       /\ Forall2 (fun i persona =>
                     exists d, nth_error (glob_yaml E dir) i = Some d
                               /\ d_load d = inr persona)
                  (selected_positions E dir n) personas
       /\ Z.of_nat (length personas) = Z.min n (Z.of_nat (available E dir)).
Proof.
  intros Hn Hfiles.
  destruct (sampled_positions_spec (draws E) (available E dir)
              (Z.min n (Z.of_nat (available E dir)))) as (Hnd & Hrange & Hlen).
  fold (selected_positions E dir n) in Hnd, Hrange, Hlen.
  split; [exact Hnd|]. split; [exact Hrange|].
  exists (parsed (selected_files E dir n)).
  rewrite load_personas_eq. cbv zeta. rewrite random_sample_nonneg by exact Hn.
  split; [reflexivity|].
  pose proof (selected_files_in_range E dir n) as Hsel.
  assert (Hwf : Forall (fun d => exists persona, d_load d = inr persona)
                       (selected_files E dir n)).
  { rewrite Forall_forall in *. intros d Hd.
    destruct (In_nth_error _ _ Hd) as [j Hj].
    assert (Hlen' : length (selected_positions E dir n)
                    = length (selected_files E dir n))
      by (eapply Forall2_length_eq; exact Hsel).
    assert (Hex : exists i, nth_error (selected_positions E dir n) j = Some i).
    { destruct (nth_error (selected_positions E dir n) j) eqn:Hnone; [eauto|].
      apply nth_error_None in Hnone.
      assert (j < length (selected_files E dir n))
        by (apply nth_error_Some; congruence).
      lia. }
    destruct Hex as [i Hi].
    destruct (Forall2_nth_error j Hsel Hi) as (d' & Hd' & Hnth).
    assert (d' = d) by congruence. subst d'.
    apply Hfiles. eapply nth_error_In; exact Hnth. }
  pose proof (parsed_well_formed Hwf) as Hparsed.
  split; [exact (Forall2_compose Hsel Hparsed)|].
  rewrite <- (Forall2_length_eq Hparsed), <- (Forall2_length_eq Hsel), Hlen.
  lia.
Qed.

Lemma load_personas_sample_witness :
  exists personas,
    snd (load_personas (three_panel)
           panel_dir 2 []) = inr personas
    /\ Z.of_nat (length personas) = 2%Z.
Proof.
  assert (Hfiles : Forall (fun d => exists persona, d_load d = inr persona)
                          (glob_yaml (three_panel)
                                     panel_dir))
    by (repeat constructor; eexists; reflexivity).
  destruct (@load_personas_sample (three_panel)
              panel_dir 2 [] ltac:(lia) Hfiles)
    as (_ & _ & personas & Hload & _ & Hsize).
  exists personas. split; [exact Hload | exact Hsize].
Defined.

(** C5 as stated fails for a negative count, which is at most the number of
    files: nothing is loaded, the sampling step raises. *)
Lemma negative_count_raises :
  (-1 <= Z.of_nat (available (three_panel)
                             panel_dir))%Z
  /\ snd (load_personas (three_panel)
            panel_dir (-1) [])
     = inl (ValueError "Sample larger than population or is negative").
Proof. split; [vm_compute; discriminate | vm_compute; reflexivity]. Qed.

(** ** C6 *)

Lemma load_events_app dir l1 l2 :
  load_events dir (l1 ++ l2) = load_events dir l1 ++ load_events dir l2.
Proof. apply flat_map_app. Qed.

(** ** C8 *)

Lemma mapM_strings A (f : string -> A) (g : yaml -> result A) :
  (forall s, g (YStr s) = inr (f s)) ->
  forall l, mapM g (map YStr l) = inr (map f l).
Proof.
  intros Hg. induction l as [|s l IH]; simpl; [reflexivity|].
  rewrite Hg, IH. reflexivity.
Qed.

(** The template, for a record whose fields have the documented types. *)
Lemma persona_text_template (E : env) persona name background objectives role tags :
  subscript persona "name" = inr (YStr name) ->
  subscript persona "persona" = inr (YStr background) ->
  subscript persona "objectives" = inr (YSeq (map YStr objectives)) ->
  subscript persona "role" = inr (YStr role) ->
  subscript persona "trader_type" = inr (YSeq (map YStr tags)) ->
  persona_text E persona
  = inr ("You are " ++ name ++ "." ++ nl ++ nl
         ++ "Background and Personality:" ++ nl ++ background ++ nl ++ nl
         ++ "Your objectives are:" ++ nl
         ++ join " " (map (fun obj => "- " ++ obj) objectives) ++ nl ++ nl
         ++ "You are a " ++ role ++ " with the following trader characteristics:" ++ nl
         ++ join ", " tags ++ nl ++ nl
         ++ "Please analyze the question from your unique perspective, considering your background, objectives, and personality traits.")%string.
Proof.
  intros Hname Hbackground Hobjectives Hrole Htags.
  unfold persona_text, objectives_text, trader_type_text.
  rewrite Hname, Hbackground, Hobjectives, Hrole, Htags. simpl.
  rewrite (mapM_strings (fun obj => "- " ++ obj)%string) by reflexivity.
  simpl. rewrite (mapM_strings (fun tag => tag)) by reflexivity.
  simpl. rewrite map_id. reflexivity.
Qed.

(** C8, at a record with two objectives: the formatter puts both on one
    line, each after a dash and with a space between them. *)
Theorem objectives_on_one_line (E : env) (h : list event) :
  format_persona_for_prompt E (persona_record "Ana") h
  = ([Log DEBUG "Formatting prompt for persona: {}" [FVal (YStr "Ana")]],
     inr (sample_prompt "Ana"))
  /\ lines (sample_prompt "Ana")
     = ["You are Ana.";
        "";
        "Background and Personality:";
        "Cautious saver";
        "";
        "Your objectives are:";
        "- Preserve capital - Beat inflation";
        "";
        "You are a Investor with the following trader characteristics:";
        "Risk averse, Long term";
        "";
        "Please analyze the question from your unique perspective, considering your background, objectives, and personality traits."].
Proof.
  split; [|vm_compute; reflexivity].
  rewrite format_persona_for_prompt_eq. reflexivity.
Qed.

(** ** C9 *)

Lemma parsed_In selected d persona :
  In d selected -> d_load d = inr persona -> In persona (parsed selected).
Proof.
  intros Hd Hload. unfold parsed. apply in_flat_map. exists d.
  split; [exact Hd|]. rewrite Hload. left. reflexivity.
Qed.

Lemma load_events_name_error dir selected d persona e :
  In d selected -> d_load d = inr persona -> subscript persona "name" = inl e ->
  In (Log ERROR "Error loading persona from {}: {}" [file_path dir d; FExn e])
     (load_events dir selected).
Proof.
  intros Hd Hload Hname. unfold load_events. apply in_flat_map. exists d.
  split; [exact Hd|]. unfold file_events. rewrite Hload, Hname.
  right. left. reflexivity.
Qed.

Lemma individual_phase_nameless (E : env) persona e question :
  subscript persona "name" = inl e ->
  forall personas responses h,
    In persona personas ->
    exists e', snd (individual_phase E personas question responses h) = inl e'.
Proof.
  intros Hname. induction personas as [|p rest IH]; intros responses h Hin;
    [elim Hin|].
  rewrite individual_phase_cons.
  destruct (get_individual_response E p question h) as [ev [e0|response]] eqn:Hone;
    [eexists; reflexivity|].
  destruct Hin as [Heq|Hin].
  - subst p. rewrite get_individual_response_eq, Hname in Hone. discriminate.
  - destruct (subscript p "name") as [e0|name]; [eexists; reflexivity|].
    destruct (as_key name) as [e0|k]; [eexists; reflexivity|].
    destruct (IH (dict_set responses k response) (h ++ ev) Hin) as [e' He'].
    exists e'. destruct (individual_phase E rest question _ _). exact He'.
Qed.

(** ** Runs that return *)

Lemma name_key_inv persona k :
  name_key persona = Some k -> subscript persona "name" = inr (YScalar k).
Proof.
  unfold name_key. destruct (subscript persona "name") as [e|[k'| |]];
    intros H; inversion H; reflexivity.
Qed.

Section Returns.
Variable E : env.
Hypothesis answered : forall h req, exists text, completion E h req = inr text.

Lemma individual_phase_returns question : forall personas,
  Forall (usable E) personas ->
  forall responses h,
    exists d, snd (individual_phase E personas question responses h) = inr d.
Proof.
  induction 1 as [|persona rest [[formatted Htext] [k Hk]] _ IH];
    intros responses h; [eexists; reflexivity|].
  rewrite individual_phase_cons, get_individual_response_eq.
  rewrite (name_key_inv _ Hk), Htext. cbv zeta.
  destruct (answered (h ++ [Log INFO "Getting individual response from persona: {}"
                                [FVal (YScalar k)];
                            Log DEBUG "Formatting prompt for persona: {}"
                                [FVal (YScalar k)]])
                     (individual_request formatted question)) as [text Htext'].
  rewrite Htext'. simpl as_key. cbv iota.
  destruct (IH (dict_set responses k text)
               (h ++ [Log INFO "Getting individual response from persona: {}"
                          [FVal (YScalar k)];
                      Log DEBUG "Formatting prompt for persona: {}"
                          [FVal (YScalar k)]]
                  ++ [Create (individual_request formatted question) (inr text);
                      Log DEBUG "Received response for {}" [FVal (YScalar k)]]))
    as [d Hd].
  exists d. destruct (individual_phase E rest question _ _). exact Hd.
Qed.

Lemma other_responses_returns individual persona k :
  name_key persona = Some k ->
  exists others, other_responses individual persona = inr others.
Proof.
  intros Hk. unfold other_responses. destruct individual; [eexists; reflexivity|].
  rewrite (name_key_inv _ Hk). eexists. reflexivity.
Qed.

Lemma collective_phase_returns question individual : forall personas,
  Forall (usable E) personas ->
  forall responses h,
    exists d, snd (collective_phase E personas question individual responses h)
              = inr d.
Proof.
  induction 1 as [|persona rest [[formatted Htext] [k Hk]] _ IH];
    intros responses h; [eexists; reflexivity|].
  rewrite collective_phase_cons.
  destruct (other_responses_returns individual _ Hk) as [others Hothers].
  rewrite Hothers, get_collective_response_eq.
  rewrite (name_key_inv _ Hk), Htext. cbv zeta.
  destruct (answered (h ++ [Log INFO "Getting collective response from persona: {}"
                                [FVal (YScalar k)];
                            Log DEBUG "Formatting prompt for persona: {}"
                                [FVal (YScalar k)]])
                     (collective_request formatted question others)) as [text Htext'].
  rewrite Htext'. simpl as_key. cbv iota.
  destruct (IH (dict_set responses k text)
               (h ++ [Log INFO "Getting collective response from persona: {}"
                          [FVal (YScalar k)];
                      Log DEBUG "Formatting prompt for persona: {}"
                          [FVal (YScalar k)]]
                  ++ [Create (collective_request formatted question others) (inr text);
                      Log DEBUG "Received collective response for {}"
                          [FVal (YScalar k)]]))
    as [d Hd].
  exists d. destruct (collective_phase E rest question individual _ _). exact Hd.
Qed.

(** With a client, personas that have a usable name and render, and an
    endpoint that answers every call, [run] returns a result. *)
Lemma run_returns question n agents_dir h personas :
  client_error E = None ->
  snd (load_personas E (personas_dir_of agents_dir) n h) = inr personas ->
  Forall (usable E) personas ->
  exists r, snd (run E question n agents_dir h) = inr r.
Proof.
  intros Hclient Hload Husable.
  destruct (load_personas E (personas_dir_of agents_dir) n h) as [evl rl] eqn:Hl.
  simpl in Hload. subst rl.
  rewrite (@run_after_load E question _ _ _ _ _ Hclient Hl). cbv [snd].
  rewrite run_rounds_eq. cbv zeta.
  destruct (individual_phase E personas question [] _) as [ev1 r1] eqn:H1.
  edestruct (individual_phase_returns question Husable) as [individual Hi].
  rewrite H1 in Hi. simpl in Hi. subst r1.
  destruct (collective_phase E personas question individual [] _) as [ev2 r2] eqn:H2.
  edestruct (collective_phase_returns question individual Husable) as [collective Hc].
  rewrite H2 in Hc. simpl in Hc. subst r2.
  eexists. reflexivity.
Qed.
End Returns.

(** * Further properties of the code *)

(** ** The persona directory (lines 127-129) *)

Lemma contains_app_r sub : forall s t,
  contains sub t = true -> contains sub (s ++ t)%string = true.
Proof.
  induction s as [|c s IH]; intros t H; simpl; [exact H|].
  rewrite (IH t H). apply orb_true_r.
Qed.

(** Whatever [agents_dir] is given, the directory that [run] loads from
    names the namespace [market_agents_personas]; a directory that names it
    already is used as it is, so the rule applied twice changes nothing. *)
Theorem personas_dir_names_namespace (agents_dir : option string) :
  contains "market_agents_personas" (personas_dir_of agents_dir) = true
  /\ personas_dir_of (Some (personas_dir_of agents_dir)) = personas_dir_of agents_dir.
Proof.
  assert (H : contains "market_agents_personas" (personas_dir_of agents_dir) = true).
  { unfold personas_dir_of.
    destruct (contains "market_agents_personas"
                (match agents_dir with
                 | Some d => d
                 | None => "./market_agents_personas"
                 end)) eqn:Hc; simpl; [exact Hc|].
    unfold path_join. simpl prefixb. cbv iota.
    destruct (_ || _)%bool; repeat apply contains_app_r; reflexivity. }
  split; [exact H|].
  unfold personas_dir_of at 1. rewrite H. reflexivity.
Qed.

(** ** Fields given as text (lines 48 and 51) *)

Lemma mapM_chars A (f : string -> A) (g : yaml -> result A) :
  (forall s, g (YStr s) = inr (f s)) ->
  forall s, mapM g (map YStr (chars s)) = inr (map f (chars s)).
Proof. intros Hg s. apply mapM_strings. exact Hg. Qed.

(** When a record gives [trader_type] as one string instead of a list of
    strings, the formatter does not fail: it joins the characters of the
    string with commas. *)
Theorem trader_type_text_splits_a_string (E : env) persona name background
        objectives role tags :
  subscript persona "name" = inr (YStr name) ->
  subscript persona "persona" = inr (YStr background) ->
  subscript persona "objectives" = inr (YSeq (map YStr objectives)) ->
  subscript persona "role" = inr (YStr role) ->
  subscript persona "trader_type" = inr (YStr tags) ->
  persona_text E persona
  = inr ("You are " ++ name ++ "." ++ nl ++ nl
         ++ "Background and Personality:" ++ nl ++ background ++ nl ++ nl
         ++ "Your objectives are:" ++ nl
         ++ join " " (map (fun obj => "- " ++ obj) objectives) ++ nl ++ nl
         ++ "You are a " ++ role ++ " with the following trader characteristics:" ++ nl
         ++ join ", " (chars tags) ++ nl ++ nl
         ++ "Please analyze the question from your unique perspective, considering your background, objectives, and personality traits.")%string.
Proof.
  intros Hname Hbackground Hobjectives Hrole Htags.
  unfold persona_text, objectives_text, trader_type_text.
  rewrite Hname, Hbackground, Hobjectives, Hrole, Htags. simpl.
  rewrite (mapM_strings (fun obj => "- " ++ obj)%string) by reflexivity.
  simpl. rewrite (mapM_chars (fun tag => tag)) by reflexivity.
  simpl. rewrite map_id. reflexivity.
Qed.

Lemma trader_type_text_splits_a_string_witness :
  exists text,
    persona_text three_panel tags_as_text_record = inr text
    /\ nth 9 (lines text) "" = "b, o, l, d".
Proof.
  eexists. split.
  - exact (@trader_type_text_splits_a_string three_panel tags_as_text_record
             "Ana" "Cautious saver" ["Preserve capital"] "Investor" "bold"
             eq_refl eq_refl eq_refl eq_refl eq_refl).
  - vm_compute. reflexivity.
Defined.

(** ** The peer block of the second prompt (line 99) *)

Lemma lines_single_line : forall s,
  single_line s = true -> lines s = [s].
Proof.
  induction s as [|c s IH]; intros H; simpl in *; [reflexivity|].
  apply andb_true_iff in H. destruct H as [Hc Hs].
  apply negb_true_iff in Hc. rewrite Hc, (IH Hs). reflexivity.
Qed.

Lemma lines_first_line : forall s t,
  single_line s = true -> lines (s ++ nl ++ t)%string = s :: lines t.
Proof.
  intros s t. change (nl ++ t)%string with (String (ascii_of_nat 10) t).
  induction s as [|c s IH]; intros H; [reflexivity|].
  simpl in H. apply andb_true_iff in H. destruct H as [Hc Hs].
  apply negb_true_iff in Hc.
  change (lines (String c s ++ String (ascii_of_nat 10) t)%string)
    with (if Ascii.eqb c (ascii_of_nat 10)
          then EmptyString :: lines (s ++ String (ascii_of_nat 10) t)%string
          else match lines (s ++ String (ascii_of_nat 10) t)%string with
               | l :: ls => String c l :: ls
               | [] => [String c EmptyString]
               end).
  rewrite Hc, (IH Hs). reflexivity.
Qed.

(** The answers of the peers are listed one to a line, each after a dash,
    as long as no answer has a line break of its own; without any peer the
    block is a single dash. *)
Theorem peer_text_lines (others : list string) :
  forallb single_line others = true ->
  lines (peer_text others)
  = match others with
    | [] => ["-"]
    | _ :: _ => map (fun answer => "-" ++ answer)%string others
    end.
Proof.
  unfold peer_text, join.
  destruct others as [|first rest]; [reflexivity|].
  revert first. induction rest as [|second rest IH]; intros first H; simpl in H.
  - apply andb_true_iff in H. destruct H as [H _].
    simpl. apply (lines_single_line ("-" ++ first)%string). exact H.
  - apply andb_true_iff in H. destruct H as [Hfirst Hrest].
    change (String.concat (nl ++ "-") (first :: second :: rest))
      with (first ++ (nl ++ "-") ++ String.concat (nl ++ "-") (second :: rest))%string.
    change ("-" ++ first ++ (nl ++ "-") ++ String.concat (nl ++ "-") (second :: rest))%string
      with (("-" ++ first) ++ nl
              ++ ("-" ++ String.concat (nl ++ "-") (second :: rest)))%string.
    rewrite lines_first_line by exact Hfirst.
    rewrite (IH second Hrest). reflexivity.
Qed.

Lemma peer_text_lines_witness :
  lines (peer_text ["answer 0"; "answer 2"]) = ["-answer 0"; "-answer 2"].
Proof.
  exact (@peer_text_lines ["answer 0"; "answer 2"] eq_refl).
Defined.

(** ** What the loader takes (lines 19-37) *)

Lemma select_In A (population : list A) positions x :
  In x (select population positions) -> In x population.
Proof.
  unfold select. intros H. apply in_flat_map in H. destruct H as (i & _ & Hi).
  destruct (nth_error population i) as [y|] eqn:Hy; [|elim Hi].
  destruct Hi as [Heq|[]]. subst y. eapply nth_error_In; exact Hy.
Qed.

Lemma parsed_inv selected persona :
  In persona (parsed selected) ->
  exists d, In d selected /\ d_load d = inr persona.
Proof.
  unfold parsed. intros H. apply in_flat_map in H. destruct H as (d & Hd & Hp).
  exists d. split; [exact Hd|].
  destruct (d_load d) as [e|p]; [elim Hp|].
  destruct Hp as [Heq|[]]. congruence.
Qed.

Lemma parsed_count : forall selected,
  length (parsed selected) + length (filter failed_to_load selected)
  = length selected.
Proof.
  induction selected as [|d rest IH]; [reflexivity|].
  unfold parsed in *. simpl. unfold failed_to_load at 1.
  destruct (d_load d); simpl; lia.
Qed.

Lemma selected_files_length (E : env) dir n :
  (0 <= n)%Z ->
  Z.of_nat (length (selected_files E dir n)) = Z.min n (Z.of_nat (available E dir)).
Proof.
  intros Hn.
  rewrite <- (Forall2_length_eq (selected_files_in_range E dir n)).
  destruct (sampled_positions_spec (draws E) (available E dir)
              (Z.min n (Z.of_nat (available E dir)))) as (_ & _ & Hlen).
  fold (selected_positions E dir n) in Hlen. lia.
Qed.

Lemma load_personas_returned (E : env) dir n h evl personas :
  load_personas E dir n h = (evl, inr personas) ->
  (0 <= n)%Z
  /\ personas = parsed (selected_files E dir n)
  /\ evl = [Log INFO "Loading {} personas from {}" [FInt n; FStr dir];
            Log INFO "Found {} persona files"
                [FInt (Z.of_nat (length (glob_yaml E dir)))]]
             ++ load_events dir (selected_files E dir n)
             ++ [Log INFO "Successfully loaded {} personas"
                     [FInt (Z.of_nat (length personas))]].
Proof.
  rewrite load_personas_eq. cbv zeta. intros H.
  destruct (Z.lt_ge_cases n 0) as [Hneg|Hn].
  - rewrite random_sample_negative in H by exact Hneg. discriminate.
  - rewrite random_sample_nonneg in H by exact Hn. inversion H; subst.
    split; [exact Hn|]. split; reflexivity.
Qed.

(** Whatever [load_personas] returns was parsed from an entry of the
    directory whose name ends in [.yaml], and it returns at most as many
    personas as were asked for and as there are such entries. *)
Theorem load_personas_only_yaml_files (E : env) dir n h personas :
  snd (load_personas E dir n h) = inr personas ->
  (forall persona,
     In persona personas ->
     exists entries d,
       listdir E dir = Some entries
       /\ In d entries
       /\ ends_with ".yaml" (d_name d) = true
       /\ d_load d = inr persona)
  /\ (Z.of_nat (length personas) <= Z.min n (Z.of_nat (available E dir)))%Z.
Proof.
  intros H. destruct (load_personas E dir n h) as [evl r] eqn:Hl.
  simpl in H. subst r. apply load_personas_returned in Hl.
  destruct Hl as (Hn & Hp & _). subst personas. split.
  - intros persona Hin. apply parsed_inv in Hin. destruct Hin as (d & Hd & Hload).
    apply select_In in Hd. unfold glob_yaml in Hd.
    destruct (listdir E dir) as [entries|]; [|elim Hd].
    apply filter_In in Hd. destruct Hd as [Hd Hname].
    exists entries, d. auto.
  - rewrite <- (selected_files_length E dir Hn).
    pose proof (parsed_count (selected_files E dir n)). lia.
Qed.

Lemma load_personas_only_yaml_files_witness :
  snd (load_personas three_panel panel_dir 2 [])
  = inr [persona_record "Ana"; persona_record "Bo"]
  /\ (Z.of_nat (length [persona_record "Ana"; persona_record "Bo"])
      <= Z.min 2 (Z.of_nat (available three_panel panel_dir)))%Z.
Proof.
  assert (Hload : snd (load_personas three_panel panel_dir 2 [])
                  = inr [persona_record "Ana"; persona_record "Bo"])
    by (vm_compute; reflexivity).
  split; [exact Hload|].
  exact (proj2 (@load_personas_only_yaml_files three_panel panel_dir 2 []
                  [persona_record "Ana"; persona_record "Bo"] Hload)).
Defined.

Lemma load_events_errors dir : forall selected,
  length (filter is_error_record (load_events dir selected))
  = length (filter failed_to_load selected) + length (filter without_name selected).
Proof.
  induction selected as [|d rest IH]; [reflexivity|].
  change (load_events dir (d :: rest))
    with (file_events dir d ++ load_events dir rest).
  rewrite filter_app, length_app, IH. simpl.
  unfold file_events, failed_to_load, without_name.
  destruct (d_load d) as [e|persona]; [simpl; lia|].
  destruct (subscript persona "name"); simpl; lia.
Qed.

(** Every selected file is either loaded or rejected by [open] or the
    parser, and the loader writes one error record for every file that is
    rejected or that parses to a value without ['name']. *)
Theorem load_personas_accounts_for_files (E : env) dir n h evl personas :
  load_personas E dir n h = (evl, inr personas) ->
  length personas + length (filter failed_to_load (selected_files E dir n))
  = length (selected_files E dir n)
  /\ Z.of_nat (length (selected_files E dir n))
     = Z.min n (Z.of_nat (available E dir))
  /\ length (filter is_error_record evl)
     = length (filter failed_to_load (selected_files E dir n))
       + length (filter without_name (selected_files E dir n)).
Proof.
  intros Hl. apply load_personas_returned in Hl. destruct Hl as (Hn & Hp & Hev).
  split; [subst personas; apply parsed_count|].
  split; [apply selected_files_length; exact Hn|].
  rewrite Hev. simpl. rewrite filter_app, length_app. simpl.
  rewrite load_events_errors. lia.
Qed.

Lemma load_personas_accounts_for_files_witness :
  exists evl personas,
    load_personas (panel_env (Some one_malformed) numbered_answers) panel_dir 5 []
    = (evl, inr personas)
    /\ length personas = 4
    /\ length (filter is_error_record evl) = 1.
Proof.
  exists (fst (load_personas (panel_env (Some one_malformed) numbered_answers)
                 panel_dir 5 [])),
         [persona_record "Ana"; persona_record "Bo"; persona_record "Di";
          persona_record "Ed"].
  assert (Hl : load_personas (panel_env (Some one_malformed) numbered_answers)
                 panel_dir 5 []
               = (fst (load_personas (panel_env (Some one_malformed) numbered_answers)
                         panel_dir 5 []),
                  inr [persona_record "Ana"; persona_record "Bo"; persona_record "Di";
                       persona_record "Ed"]))
    by (vm_compute; reflexivity).
  destruct (load_personas_accounts_for_files _ _ _ _ Hl) as (_ & _ & Herr).
  split; [exact Hl|]. split; [reflexivity | exact Herr].
Defined.

Lemma select_seq A : forall (population before : list A),
  select (before ++ population) (seq (length before) (length population))
  = population.
Proof.
  induction population as [|a population IH]; intros before; [reflexivity|].
  simpl. rewrite nth_error_app2, Nat.sub_diag by lia. simpl.
  f_equal. specialize (IH (before ++ [a])).
  rewrite <- app_assoc, length_app, Nat.add_1_r in IH. exact IH.
Qed.

Lemma selected_positions_all (E : env) dir n :
  (Z.of_nat (available E dir) <= n)%Z ->
  Permutation (selected_positions E dir n) (seq 0 (available E dir)).
Proof.
  intros Hn.
  destruct (sampled_positions_spec (draws E) (available E dir)
              (Z.min n (Z.of_nat (available E dir)))) as (Hnd & Hrange & Hlen).
  fold (selected_positions E dir n) in Hnd, Hrange, Hlen.
  apply NoDup_Permutation_bis.
  - exact Hnd.
  - rewrite length_seq. lia.
  - intros i Hi. apply in_seq. specialize (Hrange i Hi). lia.
Qed.

(** When at least as many personas are asked for as there are persona
    files, every file is selected exactly once, in some order, and the
    personas returned are those of all the files that parse. *)
Theorem load_personas_takes_every_file (E : env) dir n h :
  (Z.of_nat (available E dir) <= n)%Z ->
  Permutation (selected_files E dir n) (glob_yaml E dir)
  /\ exists personas,
       snd (load_personas E dir n h) = inr personas
       /\ Permutation personas (parsed (glob_yaml E dir)).
Proof.
  intros Hn.
  assert (Hsel : Permutation (selected_files E dir n) (glob_yaml E dir)).
  { assert (Hall : select (glob_yaml E dir) (seq 0 (available E dir))
                   = glob_yaml E dir)
      by exact (select_seq (glob_yaml E dir) []).
    apply Permutation_trans with (select (glob_yaml E dir) (seq 0 (available E dir)));
      [|rewrite Hall; reflexivity].
    unfold selected_files, select. apply Permutation_flat_map.
    apply selected_positions_all. exact Hn. }
  split; [exact Hsel|].
  exists (parsed (selected_files E dir n)). split.
  - rewrite load_personas_eq. cbv zeta.
    rewrite random_sample_nonneg by lia. reflexivity.
  - unfold parsed. apply Permutation_flat_map. exact Hsel.
Qed.

Lemma load_personas_takes_every_file_witness :
  exists personas,
    snd (load_personas three_panel panel_dir 7 []) = inr personas
    /\ Permutation personas
         [persona_record "Ana"; persona_record "Bo"; persona_record "Cy"].
Proof.
  exact (proj2 (@load_personas_takes_every_file three_panel panel_dir 7 []
                  ltac:(vm_compute; discriminate))).
Defined.

(** ** The shape of a run (lines 118-164) *)

Lemma no_call_app evs evs' : no_call evs -> no_call evs' -> no_call (evs ++ evs').
Proof.
  intros H H' req res Hin. apply in_app_or in Hin.
  destruct Hin as [Hin|Hin]; [exact (H _ _ Hin) | exact (H' _ _ Hin)].
Qed.

Lemma no_call_logs : forall evs,
  forallb (fun ev => match ev with Log _ _ _ => true | Create _ _ => false end) evs = true ->
  no_call evs.
Proof.
  induction evs as [|ev evs IH]; intros H req res Hin; [elim Hin|].
  simpl in H. apply andb_true_iff in H. destruct H as [Hev Hevs].
  destruct Hin as [Heq|Hin]; [subst ev; discriminate | exact (IH Hevs _ _ Hin)].
Qed.

Lemma no_call_is_calls_to m evs : no_call evs -> calls_to m evs.
Proof. intros H req res Hin. elim (H _ _ Hin). Qed.

Lemma in_calls m : forall evs req res,
  In (Create req res) evs -> model req = m -> In req (requests_to m evs).
Proof.
  induction evs as [|ev evs IH]; intros req res Hin Hm; [elim Hin|].
  unfold requests_to in *. simpl. apply in_or_app.
  destruct Hin as [Heq|Hin]; [left | right; eauto].
  subst ev. rewrite Hm, String.eqb_refl. left. reflexivity.
Qed.

Section Shape.
Variable E : env.

(** The three ways a run can go once the personas are loaded: no client;
    the first round fails; the first round completes and the second one
    runs. *)
Lemma run_cases question n agents_dir h evs out personas :
  snd (load_personas E (personas_dir_of agents_dir) n h) = inr personas ->
  run E question n agents_dir h = (evs, out) ->
  (no_call evs /\ exists e, out = inl e)
  \/ (exists before h1 ev1 e,
        individual_phase E personas question [] h1 = (ev1, inl e)
        /\ evs = before ++ ev1 /\ no_call before /\ out = inl e)
  \/ (exists before h1 ev1 individual between h2 ev2 r2 after,
        individual_phase E personas question [] h1 = (ev1, inr individual)
        /\ collective_phase E personas question individual [] h2 = (ev2, r2)
        /\ evs = before ++ ev1 ++ between ++ ev2 ++ after
        /\ no_call before /\ no_call between /\ no_call after
        /\ out = match r2 with
                 | inl e => inl e
                 | inr collective =>
                     inr {| individual_responses := individual;
                            collective_responses := collective |}
                 end).
Proof.
  intros Hload Hrun. rewrite run_eq in Hrun. cbv zeta in Hrun.
  destruct (client_error E) as [e|].
  { left. inversion Hrun; subst. split; [|eauto].
    apply no_call_logs. reflexivity. }
  rewrite (load_personas_history E _ _ _ h) in Hrun.
  destruct (load_personas E (personas_dir_of agents_dir) n h) as [evl rl] eqn:Hl.
  simpl in Hload. subst rl.
  assert (Hevl : no_call evl)
    by (unfold no_call; eapply load_personas_no_call; exact Hl).
  assert (Hbefore : no_call
            (run_prelude question n ++ evl
               ++ [Log INFO "Starting first iteration: Individual responses" []])).
  { apply no_call_app; [apply no_call_logs; reflexivity|].
    apply no_call_app; [exact Hevl | apply no_call_logs; reflexivity]. }
  rewrite run_rounds_eq in Hrun. cbv zeta in Hrun.
  destruct (individual_phase E personas question [] _) as [ev1 [e|individual]] eqn:H1.
  - right. left. inversion Hrun; subst.
    exists (run_prelude question n ++ evl
              ++ [Log INFO "Starting first iteration: Individual responses" []]).
    do 3 eexists. split; [exact H1|]. split; [|split; [exact Hbefore | reflexivity]].
    simpl. rewrite <- !app_assoc. reflexivity.
  - right. right.
    destruct (collective_phase E personas question individual [] _) as [ev2 r2] eqn:H2.
    exists (run_prelude question n ++ evl
              ++ [Log INFO "Starting first iteration: Individual responses" []]).
    eexists. exists ev1, individual.
    exists [Log INFO "Completed individual responses for {} personas"
                [FInt (Z.of_nat (length individual))];
            Log INFO "Starting second iteration: Collective responses" []].
    eexists. exists ev2, r2.
    destruct r2 as [e|collective]; inversion Hrun; subst.
    + exists []. split; [exact H1|]. split; [exact H2|].
      split; [simpl; rewrite <- !app_assoc, app_nil_r; reflexivity|].
      split; [exact Hbefore|]. split; [apply no_call_logs; reflexivity|].
      split; [intros ? ? []| reflexivity].
    + exists [Log INFO "Completed collective responses for {} personas"
                  [FInt (Z.of_nat (length collective))];
              Log INFO "Completed persona simulation run" []].
      split; [exact H1|]. split; [exact H2|].
      split; [simpl; rewrite <- !app_assoc; reflexivity|].
      split; [exact Hbefore|]. split; [apply no_call_logs; reflexivity|].
      split; [apply no_call_logs; reflexivity | reflexivity].
Qed.
End Shape.

(** ** The two loops, whatever their outcome (lines 135-154) *)

Lemma scalar_eqb_congr a b c :
  scalar_eqb a b = true -> scalar_eqb a c = scalar_eqb b c.
Proof.
  intros H. apply scalar_eqb_norm in H. unfold scalar_eqb. rewrite H. reflexivity.
Qed.

Lemma dict_get_set : forall d k v k',
  dict_get (dict_set d k v) k'
  = if scalar_eqb k k' then Some v else dict_get d k'.
Proof.
  induction d as [|[k0 v0] d IH]; intros k v k'; simpl; [reflexivity|].
  destruct (scalar_eqb k0 k) eqn:H0; simpl.
  - rewrite (@scalar_eqb_congr k0 k k' H0). destruct (scalar_eqb k k'); reflexivity.
  - rewrite IH. destruct (scalar_eqb k0 k') eqn:H1; [|reflexivity].
    destruct (scalar_eqb k k') eqn:H2; [|reflexivity].
    apply scalar_eqb_norm in H1, H2.
    assert (Hk : scalar_eqb k0 k = true) by (apply scalar_eqb_norm; congruence).
    congruence.
Qed.

Lemma dict_get_stored : forall pairs d k,
  dict_get (fold_left store pairs d) k
  = fold_left (fun found kv => if scalar_eqb (fst kv) k then Some (snd kv) else found)
              pairs (dict_get d k).
Proof.
  induction pairs as [|[k0 v0] pairs IH]; intros d k; simpl; [reflexivity|].
  rewrite IH. unfold store. simpl. rewrite dict_get_set. reflexivity.
Qed.

Lemma add_key_distinct ks k :
  NoDup (map norm ks) -> NoDup (map norm (add_key ks k)).
Proof.
  intros H. unfold add_key.
  destruct (existsb (fun k' => scalar_eqb k' k) ks) eqn:Hex; [exact H|].
  rewrite map_app. simpl.
  apply (Permutation_NoDup (Permutation_cons_append (map norm ks) (norm k))).
  constructor; [|exact H].
  intro Hin. apply existsb_scalar in Hin. congruence.
Qed.

Lemma add_keys_stay_distinct : forall ks acc,
  NoDup (map norm acc) -> NoDup (map norm (fold_left add_key ks acc)).
Proof.
  induction ks as [|k ks IH]; intros acc H; simpl; [exact H|].
  apply IH, add_key_distinct, H.
Qed.

Section Phases.
Variable E : env.

Ltac wrapper_outcomes H :=
  destruct (subscript _ "name") as [?e|?name] eqn:?Hname;
  [|cbv zeta in H;
    destruct (persona_text E _) as [?e|?formatted] eqn:?Htext;
    [|cbv zeta in H;
      destruct (completion E _ _) as [?e|?response] eqn:?Hanswer]];
  inversion H; subst; clear H.

Ltac in_events Hin :=
  simpl in Hin;
  repeat (destruct Hin as [Hin|Hin]; try discriminate; try contradiction).

Lemma get_individual_response_calls persona question h ev out :
  get_individual_response E persona question h = (ev, out) ->
  (requests_to "gpt-4" ev = [] /\ exists e, out = inl e)
  \/ (exists req, asked_alone E question persona req
                  /\ requests_to "gpt-4" ev = [req]).
Proof.
  rewrite get_individual_response_eq. intros H. wrapper_outcomes H.
  1,2: left; split; [reflexivity | eauto].
  all: right; eexists; split; [eexists; split; [eassumption | reflexivity]
                              | reflexivity].
Qed.

Lemma get_collective_response_calls persona question others h ev out :
  get_collective_response E persona question others h = (ev, out) ->
  (forall req e, In (Create req (inl e)) ev -> out = inl e)
  /\ (forall response, out = inr response ->
        answers_of "gpt-4o-mini" ev = [response])
  /\ ((requests_to "gpt-4o-mini" ev = [] /\ exists e, out = inl e)
      \/ (exists req, asked_with_peers E question persona req
                      /\ requests_to "gpt-4o-mini" ev = [req])).
Proof.
  rewrite get_collective_response_eq. intros H. wrapper_outcomes H.
  all: split; [intros req e' Hin; in_events Hin; inversion Hin; subst; reflexivity|].
  all: split; [intros response' Hout; inversion Hout; subst; reflexivity|].
  1,2: left; split; [reflexivity | eauto].
  all: right; eexists; split; [do 2 eexists; split; [eassumption | reflexivity]
                              | reflexivity].
Qed.

(** The first loop calls for the personas in load order, one call each,
    and stops at the first failure. *)
Lemma individual_phase_prefix : forall personas question responses h evs out,
  individual_phase E personas question responses h = (evs, out) ->
  exists called rest,
    personas = called ++ rest
    /\ Forall2 (asked_alone E question) called (requests_to "gpt-4" evs).
Proof.
  induction personas as [|persona rest IH]; intros question responses h evs out H.
  - inversion H; subst. exists [], []. split; [reflexivity | constructor].
  - rewrite individual_phase_cons in H.
    destruct (get_individual_response E persona question h) as [ev r] eqn:Hone.
    apply get_individual_response_calls in Hone.
    assert (Hstop : exists called rest0,
              persona :: rest = called ++ rest0
              /\ Forall2 (asked_alone E question) called (requests_to "gpt-4" ev)).
    { destruct Hone as [[Hnone _]|(req & Hreq & Hone)].
      - exists [], (persona :: rest). rewrite Hnone. split; [reflexivity | constructor].
      - exists [persona], rest. rewrite Hone.
        split; [reflexivity | repeat constructor; exact Hreq]. }
    destruct r as [e|response]; [inversion H; subst; exact Hstop|].
    destruct (subscript persona "name") as [e|name];
      [inversion H; subst; exact Hstop|].
    destruct (as_key name) as [e|k]; [inversion H; subst; exact Hstop|].
    clear Hstop.
    destruct (individual_phase E rest question _ _) as [ev' r'] eqn:Hrest.
    inversion H; subst. apply IH in Hrest.
    destruct Hrest as (called & rest0 & Hsplit & Hcalled).
    destruct Hone as [[_ [e He]]|(req & Hreq & Hone)]; [discriminate|].
    exists (persona :: called), rest0. rewrite requests_to_app, Hone, Hsplit.
    split; [reflexivity | constructor; assumption].
Qed.

Lemma collective_phase_prefix :
  forall personas question individual responses h evs out,
    collective_phase E personas question individual responses h = (evs, out) ->
    (exists called rest,
       personas = called ++ rest
       /\ Forall2 (asked_with_peers E question) called
                  (requests_to "gpt-4o-mini" evs))
    /\ (forall req e, In (Create req (inl e)) evs -> out = inl e).
Proof.
  induction personas as [|persona rest IH];
    intros question individual responses h evs out H.
  - inversion H; subst. split; [|intros ? ? []].
    exists [], []. split; [reflexivity | constructor].
  - rewrite collective_phase_cons in H.
    destruct (other_responses individual persona) as [e|others].
    { inversion H; subst. split; [|intros ? ? []].
      exists [], (persona :: rest). split; [reflexivity | constructor]. }
    destruct (get_collective_response E persona question others h) as [ev r] eqn:Hone.
    apply get_collective_response_calls in Hone.
    destruct Hone as (Hfail & _ & Hone).
    assert (Hstop : exists called rest0,
              persona :: rest = called ++ rest0
              /\ Forall2 (asked_with_peers E question) called
                         (requests_to "gpt-4o-mini" ev)).
    { destruct Hone as [[Hnone _]|(req & Hreq & Hone)].
      - exists [], (persona :: rest). rewrite Hnone.
        split; [reflexivity | constructor].
      - exists [persona], rest. rewrite Hone.
        split; [reflexivity | repeat constructor; exact Hreq]. }
    destruct r as [e|response].
    { inversion H; subst. split; [exact Hstop|].
      intros req e' Hin. generalize (Hfail req e' Hin). congruence. }
    assert (Hanswered : forall req e, ~ In (Create req (inl e)) ev)
      by (intros req e Hin; discriminate (Hfail req e Hin)).
    destruct (subscript persona "name") as [e|name].
    { inversion H; subst. split; [exact Hstop|].
      intros req e' Hin. elim (Hanswered _ _ Hin). }
    destruct (as_key name) as [e|k].
    { inversion H; subst. split; [exact Hstop|].
      intros req e' Hin. elim (Hanswered _ _ Hin). }
    clear Hstop.
    destruct (collective_phase E rest question individual _ _) as [ev' r'] eqn:Hrest.
    inversion H; subst. apply IH in Hrest.
    destruct Hrest as ((called & rest0 & Hsplit & Hcalled) & Hfail').
    split.
    + destruct Hone as [[_ [e He]]|(req & Hreq & Hone)]; [discriminate|].
      exists (persona :: called), rest0. rewrite requests_to_app, Hone, Hsplit.
      split; [reflexivity | constructor; assumption].
    + intros req e Hin. apply in_app_or in Hin. destruct Hin as [Hin|Hin]; eauto.
      elim (Hanswered _ _ Hin).
Qed.

Lemma individual_phase_stored : forall personas question responses h evs d,
  individual_phase E personas question responses h = (evs, inr d) ->
  d = fold_left store (combine (names personas) (answers_of "gpt-4" evs)) responses.
Proof.
  induction personas as [|persona rest IH]; intros question responses h evs d H.
  - inversion H; subst. reflexivity.
  - rewrite individual_phase_cons in H.
    destruct (get_individual_response E persona question h) as [ev r] eqn:Hone.
    apply get_individual_response_inv in Hone. destruct Hone as (_ & _ & Hok).
    destruct r as [e|response]; [discriminate|].
    destruct (Hok response eq_refl) as (name & formatted & Hname & _ & _ & Hans).
    rewrite Hname in H. destruct (as_key name) as [e|k] eqn:Hk; [discriminate|].
    destruct (individual_phase E rest question _ _) as [ev' r'] eqn:Hrest.
    inversion H; subst. apply IH in Hrest.
    assert (Hkey : name_key persona = Some k)
      by (eapply name_key_stored; eassumption).
    rewrite (@names_cons persona rest k Hkey), answers_of_app, Hans.
    exact Hrest.
Qed.

Lemma collective_phase_stored :
  forall personas question individual responses h evs d,
    collective_phase E personas question individual responses h = (evs, inr d) ->
    d = fold_left store (combine (names personas) (answers_of "gpt-4o-mini" evs))
                  responses
    /\ length (answers_of "gpt-4o-mini" evs) = length personas.
Proof.
  induction personas as [|persona rest IH];
    intros question individual responses h evs d H.
  - inversion H; subst. split; reflexivity.
  - rewrite collective_phase_cons in H.
    destruct (other_responses individual persona) as [e|others]; [discriminate|].
    destruct (get_collective_response E persona question others h) as [ev r] eqn:Hone.
    pose proof Hone as Hinv. apply get_collective_response_inv in Hinv.
    destruct Hinv as (_ & Hok).
    apply get_collective_response_calls in Hone. destruct Hone as (_ & Hans & _).
    destruct r as [e|response]; [discriminate|].
    destruct (Hok response eq_refl) as (name & formatted & Hname & _).
    specialize (Hans response eq_refl).
    rewrite Hname in H. destruct (as_key name) as [e|k] eqn:Hk; [discriminate|].
    destruct (collective_phase E rest question individual _ _) as [ev' r'] eqn:Hrest.
    inversion H; subst. apply IH in Hrest. destruct Hrest as [Hrest Hlen].
    assert (Hkey : name_key persona = Some k)
      by (eapply name_key_stored; eassumption).
    rewrite (@names_cons persona rest k Hkey), answers_of_app, Hans.
    split; [exact Hrest | simpl; congruence].
Qed.
End Phases.

(** ** Calls of a run *)

Lemma no_call_lists m evs :
  no_call evs -> requests_to m evs = [] /\ answers_of m evs = [].
Proof. intros H. apply no_call_requests. exact H. Qed.

Lemma shape_calls m before ev1 between ev2 after :
  no_call before -> no_call between -> no_call after ->
  requests_to m (before ++ ev1 ++ between ++ ev2 ++ after)
  = requests_to m ev1 ++ requests_to m ev2
  /\ answers_of m (before ++ ev1 ++ between ++ ev2 ++ after)
     = answers_of m ev1 ++ answers_of m ev2.
Proof.
  intros Hb Hm Ha.
  destruct (no_call_lists m Hb) as [Hb1 Hb2].
  destruct (no_call_lists m Hm) as [Hm1 Hm2].
  destruct (no_call_lists m Ha) as [Ha1 Ha2].
  rewrite !requests_to_app, !answers_of_app.
  rewrite Hb1, Hb2, Hm1, Hm2, Ha1, Ha2. simpl. rewrite !app_nil_r. auto.
Qed.

Lemma gpt4_is_not_mini : "gpt-4" <> "gpt-4o-mini".
Proof. discriminate. Qed.

Lemma mini_is_not_gpt4 : "gpt-4o-mini" <> "gpt-4".
Proof. discriminate. Qed.

Lemma in_shape (ev : event) before ev1 between ev2 after :
  no_call before -> no_call between -> no_call after ->
  (exists req res, ev = Create req res) ->
  In ev (before ++ ev1 ++ between ++ ev2 ++ after) ->
  In ev ev1 \/ In ev ev2.
Proof.
  intros Hb Hm Ha (req & res & Hev) Hin. subst ev.
  apply in_app_or in Hin. destruct Hin as [Hin|Hin]; [elim (Hb _ _ Hin)|].
  apply in_app_or in Hin. destruct Hin as [Hin|Hin]; [left; exact Hin|].
  apply in_app_or in Hin. destruct Hin as [Hin|Hin]; [elim (Hm _ _ Hin)|].
  apply in_app_or in Hin. destruct Hin as [Hin|Hin]; [right; exact Hin|].
  elim (Ha _ _ Hin).
Qed.

(** The second round starts only when the first one is over: in the events
    of any run, every call of the first round comes before every call of
    the second, and a call of the second round is made only after every
    loaded persona has had its first-round answer. *)
Theorem rounds_do_not_interleave (E : env) question n agents_dir h evs out personas :
  snd (load_personas E (personas_dir_of agents_dir) n h) = inr personas ->
  run E question n agents_dir h = (evs, out) ->
  exists first second,
    evs = first ++ second
    /\ calls_to "gpt-4" first
    /\ calls_to "gpt-4o-mini" second
    /\ (requests_to "gpt-4o-mini" second <> [] ->
        length (answers_of "gpt-4" first) = length personas).
Proof.
  intros Hload Hrun.
  destruct (@run_cases E question n agents_dir h evs out personas Hload Hrun)
    as [[Hnone _]|[(before & h1 & ev1 & e & H1 & Hevs & Hb & _)
                  |(before & h1 & ev1 & individual & between & h2 & ev2 & r2 & after
                    & H1 & H2 & Hevs & Hb & Hm & Ha & _)]].
  - exists evs, []. rewrite app_nil_r. split; [reflexivity|].
    split; [apply no_call_is_calls_to; exact Hnone|].
    split; [intros ? ? []|]. intros Hsome. elim Hsome. reflexivity.
  - exists evs, []. rewrite app_nil_r. split; [reflexivity|]. subst evs.
    apply individual_phase_calls in H1. destruct H1 as [H1 _].
    split; [apply calls_to_app; [apply no_call_is_calls_to; exact Hb | exact H1]|].
    split; [intros ? ? []|]. intros Hsome. elim Hsome. reflexivity.
  - exists (before ++ ev1 ++ between), (ev2 ++ after).
    split; [subst evs; rewrite <- !app_assoc; reflexivity|].
    pose proof H1 as Hc1. apply individual_phase_calls in Hc1. destruct Hc1 as [Hc1 _].
    apply individual_phase_ok in H1. destruct H1 as (_ & _ & Hanswers & _).
    apply collective_phase_calls in H2.
    split.
    { apply calls_to_app; [apply no_call_is_calls_to; exact Hb|].
      apply calls_to_app; [exact Hc1 | apply no_call_is_calls_to; exact Hm]. }
    split.
    { apply calls_to_app; [exact H2 | apply no_call_is_calls_to; exact Ha]. }
    intros _. rewrite !answers_of_app.
    destruct (no_call_lists "gpt-4" Hb) as [_ Hb2].
    destruct (no_call_lists "gpt-4" Hm) as [_ Hm2].
    rewrite Hb2, Hm2, app_nil_r. exact Hanswers.
Qed.

Lemma rounds_do_not_interleave_witness :
  exists first second,
    fst (run three_panel "Q" 3 None []) = first ++ second
    /\ calls_to "gpt-4" first
    /\ calls_to "gpt-4o-mini" second
    /\ (requests_to "gpt-4o-mini" second <> [] ->
        length (answers_of "gpt-4" first) = 3).
Proof.
  refine (@rounds_do_not_interleave three_panel "Q" 3 None []
            (fst (run three_panel "Q" 3 None []))
            (snd (run three_panel "Q" 3 None []))
            [persona_record "Ana"; persona_record "Bo"; persona_record "Cy"] _ _);
    vm_compute; reflexivity.
Defined.

(** A run that returns a result made one answered call for every loaded
    persona in each round, in that order, and no call of it failed: there
    is no retry and no skipped persona. *)
Theorem returned_run_calls (E : env) question n agents_dir h evs r personas :
  snd (load_personas E (personas_dir_of agents_dir) n h) = inr personas ->
  run E question n agents_dir h = (evs, inr r) ->
  length (requests_to "gpt-4" evs) = length personas
  /\ length (answers_of "gpt-4" evs) = length personas
  /\ length (requests_to "gpt-4o-mini" evs) = length personas
  /\ length (answers_of "gpt-4o-mini" evs) = length personas
  /\ forall req e, ~ In (Create req (inl e)) evs.
Proof.
  intros Hload Hrun.
  destruct (@run_cases E question n agents_dir h evs (inr r) personas Hload Hrun)
    as [[_ [e He]]|[(before & h1 & ev1 & e & _ & _ & _ & He)
                   |(before & h1 & ev1 & individual & between & h2 & ev2 & r2 & after
                     & H1 & H2 & Hevs & Hb & Hm & Ha & Hout)]]; try discriminate.
  destruct r2 as [e|collective]; [discriminate|].
  pose proof H1 as Hc1. apply individual_phase_calls in Hc1. destruct Hc1 as [Hc1 Hf1].
  pose proof H2 as Hc2. apply collective_phase_calls in Hc2.
  pose proof H2 as Hp2. apply collective_phase_prefix in Hp2. destruct Hp2 as [_ Hf2].
  pose proof H2 as Hs2. apply collective_phase_stored in Hs2. destruct Hs2 as [_ Hlen2].
  pose proof H2 as Ho2. apply collective_phase_ok in Ho2. destruct Ho2 as [_ Hreq2].
  apply individual_phase_ok in H1. destruct H1 as (_ & _ & Hlen1 & Hreq1 & _).
  destruct (@shape_calls "gpt-4" before ev1 between ev2 after Hb Hm Ha) as [Hr4 Ha4].
  destruct (@shape_calls "gpt-4o-mini" before ev1 between ev2 after Hb Hm Ha)
    as [Hrm Ham].
  rewrite Hevs, Hr4, Ha4, Hrm, Ham.
  rewrite (@calls_to_other _ _ ev2 Hc2 mini_is_not_gpt4),
          (@calls_to_other_answers _ _ ev2 Hc2 mini_is_not_gpt4),
          (@calls_to_other _ _ ev1 Hc1 gpt4_is_not_mini),
          (@calls_to_other_answers _ _ ev1 Hc1 gpt4_is_not_mini).
  rewrite !app_nil_r. simpl.
  split; [symmetry; eapply Forall2_length_eq; exact Hreq1|].
  split; [exact Hlen1|].
  split; [symmetry; eapply Forall2_length_eq; exact Hreq2|].
  split; [exact Hlen2|].
  intros req e Hin.
  destruct (@in_shape (Create req (inl e)) before ev1 between ev2 after Hb Hm Ha
              ltac:(eauto) Hin) as [Hin1|Hin2].
  - discriminate (Hf1 _ _ Hin1).
  - discriminate (Hf2 _ _ Hin2).
Qed.

Lemma returned_run_calls_witness :
  length (requests_to "gpt-4" (fst (run three_panel "Q" 3 None []))) = 3
  /\ length (requests_to "gpt-4o-mini" (fst (run three_panel "Q" 3 None []))) = 3.
Proof.
  destruct (@returned_run_calls three_panel "Q" 3 None []
              (fst (run three_panel "Q" 3 None []))
              {| individual_responses :=
                   [(KStr "Ana", "answer 0"); (KStr "Bo", "answer 1");
                    (KStr "Cy", "answer 2")];
                 collective_responses :=
                   [(KStr "Ana", "answer 3"); (KStr "Bo", "answer 4");
                    (KStr "Cy", "answer 5")] |}
              [persona_record "Ana"; persona_record "Bo"; persona_record "Cy"]
              ltac:(vm_compute; reflexivity) ltac:(vm_compute; reflexivity))
    as (H1 & _ & H2 & _).
  split; [exact H1 | exact H2].
Defined.

(** When a call of the second round fails, the run ends with the error of
    that call and no result, although every loaded persona had answered
    the first round: the first-round answers are lost with it. *)
Theorem collective_failure_aborts (E : env) question n agents_dir h evs out
        personas req e :
  snd (load_personas E (personas_dir_of agents_dir) n h) = inr personas ->
  run E question n agents_dir h = (evs, out) ->
  In (Create req (inl e)) evs ->
  model req = "gpt-4o-mini" ->
  out = inl e /\ length (answers_of "gpt-4" evs) = length personas.
Proof.
  intros Hload Hrun Hin Hmodel.
  destruct (@run_cases E question n agents_dir h evs out personas Hload Hrun)
    as [[Hnone _]|[(before & h1 & ev1 & e1 & H1 & Hevs & Hb & _)
                  |(before & h1 & ev1 & individual & between & h2 & ev2 & r2 & after
                    & H1 & H2 & Hevs & Hb & Hm & Ha & Hout)]].
  - elim (Hnone _ _ Hin).
  - subst evs. apply in_app_or in Hin. destruct Hin as [Hin|Hin]; [elim (Hb _ _ Hin)|].
    apply individual_phase_calls in H1. destruct H1 as [H1 _].
    rewrite (H1 _ _ Hin) in Hmodel. discriminate.
  - pose proof H1 as Hc1. apply individual_phase_calls in Hc1. destruct Hc1 as [Hc1 _].
    pose proof H2 as Hc2. apply collective_phase_calls in Hc2.
    pose proof H2 as Hp2. apply collective_phase_prefix in Hp2. destruct Hp2 as [_ Hf2].
    apply individual_phase_ok in H1. destruct H1 as (_ & _ & Hlen1 & _).
    destruct (@shape_calls "gpt-4" before ev1 between ev2 after Hb Hm Ha) as [_ Ha4].
    rewrite Hevs in Hin |- *. rewrite Ha4.
    rewrite (@calls_to_other_answers _ _ ev2 Hc2 mini_is_not_gpt4), app_nil_r.
    split; [|exact Hlen1].
    destruct (@in_shape (Create req (inl e)) before ev1 between ev2 after Hb Hm Ha
                ltac:(eauto) Hin) as [Hin1|Hin2].
    + rewrite (Hc1 _ _ Hin1) in Hmodel. discriminate.
    + rewrite (Hf2 _ _ Hin2) in Hout. exact Hout.
Qed.

Lemma collective_failure_aborts_witness :
  snd (run (panel_env (Some three_files) fourth_call_fails) "Q" 3 None [])
  = inl (OtherError "APIError" "rate limit")
  /\ length (answers_of "gpt-4"
               (fst (run (panel_env (Some three_files) fourth_call_fails)
                       "Q" 3 None []))) = 3.
Proof.
  apply (@collective_failure_aborts
           (panel_env (Some three_files) fourth_call_fails) "Q" 3 None []
           (fst (run (panel_env (Some three_files) fourth_call_fails) "Q" 3 None []))
           (snd (run (panel_env (Some three_files) fourth_call_fails) "Q" 3 None []))
           [persona_record "Ana"; persona_record "Bo"; persona_record "Cy"]
           (collective_request (sample_prompt "Ana") "Q" ["answer 1"; "answer 2"])
           (OtherError "APIError" "rate limit")).
  - vm_compute. reflexivity.
  - vm_compute. reflexivity.
  - apply (nth_error_In _ 29). vm_compute. reflexivity.
  - reflexivity.
Defined.

(** In any run, also one that fails, the calls of each round are made for
    the loaded personas in load order, from the first one on, one call a
    persona, each with the prompt rendered from that persona and with the
    question of the run; the run makes no other call. *)
Theorem calls_follow_load_order (E : env) question n agents_dir h evs out personas :
  snd (load_personas E (personas_dir_of agents_dir) n h) = inr personas ->
  run E question n agents_dir h = (evs, out) ->
  (exists called rest,
     personas = called ++ rest
     /\ Forall2 (asked_alone E question) called (requests_to "gpt-4" evs))
  /\ (exists called rest,
        personas = called ++ rest
        /\ Forall2 (asked_with_peers E question) called
                   (requests_to "gpt-4o-mini" evs))
  /\ (forall req res,
        In (Create req res) evs ->
        In req (requests_to "gpt-4" evs) \/ In req (requests_to "gpt-4o-mini" evs)).
Proof.
  intros Hload Hrun.
  destruct (@run_cases E question n agents_dir h evs out personas Hload Hrun)
    as [[Hnone _]|[(before & h1 & ev1 & e1 & H1 & Hevs & Hb & _)
                  |(before & h1 & ev1 & individual & between & h2 & ev2 & r2 & after
                    & H1 & H2 & Hevs & Hb & Hm & Ha & Hout)]].
  - destruct (no_call_lists "gpt-4" Hnone) as [H4 _].
    destruct (no_call_lists "gpt-4o-mini" Hnone) as [Hmini _].
    rewrite H4, Hmini.
    split; [exists [], personas; split; [reflexivity | constructor]|].
    split; [exists [], personas; split; [reflexivity | constructor]|].
    intros req res Hin. elim (Hnone _ _ Hin).
  - pose proof H1 as Hc1. apply individual_phase_calls in Hc1. destruct Hc1 as [Hc1 _].
    apply individual_phase_prefix in H1.
    destruct (no_call_lists "gpt-4" Hb) as [Hb4 _].
    destruct (no_call_lists "gpt-4o-mini" Hb) as [Hbm _].
    subst evs. rewrite !requests_to_app, Hb4, Hbm.
    rewrite (@calls_to_other _ _ ev1 Hc1 gpt4_is_not_mini). simpl.
    split; [exact H1|].
    split; [exists [], personas; split; [reflexivity | constructor]|].
    intros req res Hin. apply in_app_or in Hin.
    destruct Hin as [Hin|Hin]; [elim (Hb _ _ Hin)|].
    left. eapply in_calls; [exact Hin | exact (Hc1 _ _ Hin)].
  - pose proof H1 as Hc1. apply individual_phase_calls in Hc1. destruct Hc1 as [Hc1 _].
    pose proof H2 as Hc2. apply collective_phase_calls in Hc2.
    apply individual_phase_prefix in H1.
    apply collective_phase_prefix in H2. destruct H2 as [H2 _].
    destruct (@shape_calls "gpt-4" before ev1 between ev2 after Hb Hm Ha) as [Hr4 _].
    destruct (@shape_calls "gpt-4o-mini" before ev1 between ev2 after Hb Hm Ha)
      as [Hrm _].
    rewrite Hevs, Hr4, Hrm.
    rewrite (@calls_to_other _ _ ev2 Hc2 mini_is_not_gpt4),
            (@calls_to_other _ _ ev1 Hc1 gpt4_is_not_mini).
    rewrite app_nil_r. simpl.
    split; [exact H1|]. split; [exact H2|].
    intros req res Hin.
    destruct (@in_shape (Create req res) before ev1 between ev2 after Hb Hm Ha
                ltac:(eauto) Hin) as [Hin1|Hin2].
    + left. eapply in_calls; [exact Hin1 | exact (Hc1 _ _ Hin1)].
    + right. eapply in_calls; [exact Hin2 | exact (Hc2 _ _ Hin2)].
Qed.

Lemma calls_follow_load_order_witness :
  exists called rest,
    [persona_record "Ana"; persona_record "Bo"; persona_record "Cy";
     persona_record "Di"; persona_record "Ed"] = called ++ rest
    /\ Forall2 (asked_alone (panel_env (Some five_files) third_call_fails) "Q") called
               (requests_to "gpt-4"
                  (fst (run (panel_env (Some five_files) third_call_fails)
                          "Q" 5 None []))).
Proof.
  exact (proj1 (@calls_follow_load_order
                  (panel_env (Some five_files) third_call_fails) "Q" 5 None []
                  (fst (run (panel_env (Some five_files) third_call_fails)
                          "Q" 5 None []))
                  (snd (run (panel_env (Some five_files) third_call_fails)
                          "Q" 5 None []))
                  [persona_record "Ana"; persona_record "Bo"; persona_record "Cy";
                   persona_record "Di"; persona_record "Ed"]
                  ltac:(vm_compute; reflexivity) ltac:(vm_compute; reflexivity))).
Defined.

(** ** The response mappings (lines 134-154) *)

(** The mappings of a returned result never hold the same key twice, also
    when several personas give the same name. *)
Theorem response_keys_are_distinct (E : env) question n agents_dir h evs r personas :
  snd (load_personas E (personas_dir_of agents_dir) n h) = inr personas ->
  run E question n agents_dir h = (evs, inr r) ->
  distinct_keys (keys (individual_responses r)) = true
  /\ distinct_keys (keys (collective_responses r)) = true.
Proof.
  intros Hload Hrun.
  destruct (@run_inv E _ _ _ _ _ _ _ Hload Hrun) as (h1 & ev1 & h2 & ev2 & H1 & H2 & _).
  apply individual_phase_ok in H1. destruct H1 as (_ & Hk1 & _).
  apply collective_phase_ok in H2. destruct H2 as (Hk2 & _).
  rewrite Hk1, Hk2.
  split; apply distinct_keys_NoDup, add_keys_stay_distinct; constructor.
Qed.

Lemma response_keys_are_distinct_witness :
  distinct_keys (keys [(KStr "Ana", "answer 1"); (KStr "Bo", "answer 2")]) = true
  /\ distinct_keys (keys [(KStr "Ana", "answer 4"); (KStr "Bo", "answer 5")]) = true.
Proof.
  exact (@response_keys_are_distinct shared_name_panel "Q" 3 None []
           (fst (run shared_name_panel "Q" 3 None []))
           {| individual_responses := [(KStr "Ana", "answer 1"); (KStr "Bo", "answer 2")];
              collective_responses := [(KStr "Ana", "answer 4"); (KStr "Bo", "answer 5")] |}
           [persona_record "Ana"; persona_record "Ana"; persona_record "Bo"]
           ltac:(vm_compute; reflexivity) ltac:(vm_compute; reflexivity)).
Defined.

(** Looking a name up in a mapping of a returned result gives the answer
    to the last loaded persona of that name: when two personas share a
    name, the later answer replaces the earlier one in both mappings. *)
Theorem last_answer_is_kept (E : env) question n agents_dir h evs r personas :
  snd (load_personas E (personas_dir_of agents_dir) n h) = inr personas ->
  run E question n agents_dir h = (evs, inr r) ->
  forall k,
    dict_get (individual_responses r) k
    = last_value (combine (names personas) (answers_of "gpt-4" evs)) k
    /\ dict_get (collective_responses r) k
       = last_value (combine (names personas) (answers_of "gpt-4o-mini" evs)) k.
Proof.
  intros Hload Hrun k.
  destruct (@run_cases E question n agents_dir h evs (inr r) personas Hload Hrun)
    as [[_ [e He]]|[(before & h1 & ev1 & e & _ & _ & _ & He)
                   |(before & h1 & ev1 & individual & between & h2 & ev2 & r2 & after
                     & H1 & H2 & Hevs & Hb & Hm & Ha & Hout)]]; try discriminate.
  destruct r2 as [e|collective]; [discriminate|]. inversion Hout; subst r. simpl.
  pose proof H1 as Hc1. apply individual_phase_calls in Hc1. destruct Hc1 as [Hc1 _].
  pose proof H2 as Hc2. apply collective_phase_calls in Hc2.
  apply individual_phase_stored in H1.
  apply collective_phase_stored in H2. destruct H2 as [H2 _].
  destruct (@shape_calls "gpt-4" before ev1 between ev2 after Hb Hm Ha) as [_ Ha4].
  destruct (@shape_calls "gpt-4o-mini" before ev1 between ev2 after Hb Hm Ha)
    as [_ Ham].
  rewrite Hevs, Ha4, Ham.
  rewrite (@calls_to_other_answers _ _ ev2 Hc2 mini_is_not_gpt4),
          (@calls_to_other_answers _ _ ev1 Hc1 gpt4_is_not_mini).
  rewrite app_nil_r. simpl. rewrite H1, H2. unfold last_value.
  split; apply dict_get_stored.
Qed.

Lemma last_answer_is_kept_witness :
  dict_get [(KStr "Ana", "answer 1"); (KStr "Bo", "answer 2")] (KStr "Ana")
  = Some "answer 1".
Proof.
  etransitivity.
  - exact (proj1 (@last_answer_is_kept shared_name_panel "Q" 3 None []
                    (fst (run shared_name_panel "Q" 3 None []))
                    {| individual_responses :=
                         [(KStr "Ana", "answer 1"); (KStr "Bo", "answer 2")];
                       collective_responses :=
                         [(KStr "Ana", "answer 4"); (KStr "Bo", "answer 5")] |}
                    [persona_record "Ana"; persona_record "Ana"; persona_record "Bo"]
                    ltac:(vm_compute; reflexivity) ltac:(vm_compute; reflexivity)
                    (KStr "Ana"))).
  - vm_compute. reflexivity.
Defined.

(** ** Personas that cannot be asked (lines 55-84, 136-137) *)

Lemma persona_text_needs_name (E : env) persona e :
  subscript persona "name" = inl e -> persona_text E persona = inl e.
Proof. intros H. unfold persona_text. rewrite H. reflexivity. Qed.

(** A persona that does not render is never sent to the endpoint: both
    wrappers raise the error of the rendering before any call is made. *)
Theorem no_call_without_prompt (E : env) persona e question others h :
  persona_text E persona = inl e ->
  snd (get_individual_response E persona question h) = inl e
  /\ no_call (fst (get_individual_response E persona question h))
  /\ snd (get_collective_response E persona question others h) = inl e
  /\ no_call (fst (get_collective_response E persona question others h)).
Proof.
  intros Htext.
  rewrite get_individual_response_eq, get_collective_response_eq.
  destruct (subscript persona "name") as [e0|name] eqn:Hname.
  - rewrite (persona_text_needs_name E persona Hname) in Htext.
    inversion Htext; subst.
    repeat split; try reflexivity; intros ? ? [].
  - rewrite Htext. cbv zeta.
    repeat split; try reflexivity; apply no_call_logs; reflexivity.
Qed.

Lemma no_call_without_prompt_witness :
  snd (get_individual_response three_panel nameless_record "Q" []) = inl (KeyError "name")
  /\ no_call (fst (get_individual_response three_panel nameless_record "Q" []))
  /\ snd (get_collective_response three_panel nameless_record "Q" ["answer 0"] [])
     = inl (KeyError "name")
  /\ no_call (fst (get_collective_response three_panel nameless_record "Q"
                     ["answer 0"] [])).
Proof.
  exact (@no_call_without_prompt three_panel nameless_record (KeyError "name")
           "Q" ["answer 0"] [] eq_refl).
Defined.

(** A persona whose name is a list or a dict renders and is asked, but its
    answer cannot be stored: the first loop calls the endpoint for it and
    then stops with an exception, which is the TypeError of the store when
    the call was answered. *)
Theorem unhashable_name_fails_after_call (E : env) persona name e formatted
        rest question responses h :
  subscript persona "name" = inr name ->
  as_key name = inl e ->
  persona_text E persona = inr formatted ->
  exists evs e',
    individual_phase E (persona :: rest) question responses h = (evs, inl e')
    /\ requests_to "gpt-4" evs = [individual_request formatted question]
    /\ (forall text, answers_of "gpt-4" evs = [text] -> e' = e).
Proof.
  intros Hname Hkey Htext.
  rewrite individual_phase_cons, get_individual_response_eq, Hname, Htext.
  cbv zeta. rewrite Hkey.
  destruct (completion E _ _) as [e0|text].
  - do 2 eexists. split; [reflexivity|]. split; [reflexivity|].
    intros text Hans. discriminate Hans.
  - do 2 eexists. split; [reflexivity|]. split; [reflexivity|].
    intros text' _. reflexivity.
Qed.

Lemma unhashable_name_fails_after_call_witness :
  exists evs,
    individual_phase three_panel [list_name_record; persona_record "Bo"] "Q" [] []
    = (evs, inl (TypeError "unhashable type"))
    /\ length (requests_to "gpt-4" evs) = 1.
Proof.
  destruct (@unhashable_name_fails_after_call three_panel list_name_record
              (YSeq [YStr "Ana"; YStr "Bo"]) (TypeError "unhashable type")
              (match persona_text three_panel list_name_record with
               | inr text => text
               | inl _ => ""
               end)
              [persona_record "Bo"] "Q" [] [] eq_refl eq_refl eq_refl)
    as (evs & e' & Hrun & Hreq & Hans).
  exists evs.
  assert (He' : e' = TypeError "unhashable type").
  { apply (Hans "answer 0").
    assert (Hfst : evs = fst (individual_phase three_panel
                                [list_name_record; persona_record "Bo"] "Q" [] []))
      by (rewrite Hrun; reflexivity).
    rewrite Hfst. vm_compute. reflexivity. }
  subst e'. split; [exact Hrun|]. rewrite Hreq. reflexivity.
Defined.

(** ** A panel of one (lines 143-154) *)

(** When a single persona is loaded and the run returns, that persona is
    still asked in the second round, with an empty list of peers. *)
Theorem single_persona_has_no_peers (E : env) question n agents_dir h evs r persona :
  snd (load_personas E (personas_dir_of agents_dir) n h) = inr [persona] ->
  run E question n agents_dir h = (evs, inr r) ->
  exists formatted,
    persona_text E persona = inr formatted
    /\ requests_to "gpt-4o-mini" evs = [collective_request formatted question []].
Proof.
  intros Hload Hrun.
  destruct (@run_inv E _ _ _ _ _ _ _ Hload Hrun)
    as (h1 & ev1 & h2 & ev2 & H1 & H2 & _ & _ & Hr2).
  apply individual_phase_ok in H1.
  destruct H1 as (Hlen & Hkeys & Hanswers & _ & Hstored).
  apply collective_phase_ok in H2. destruct H2 as (_ & Hreqs).
  rewrite Hr2.
  assert (Hnd : NoDup (map norm (names [persona]))).
  { destruct (names [persona]) as [|k [|k' ks]]; simpl in Hlen; try discriminate.
    repeat constructor. intros []. }
  specialize (Hstored Hnd). cbn [app] in Hstored.
  destruct (@values_combine (names [persona]) (answers_of "gpt-4" ev1))
    as [Hvalues Hkeys']; [congruence|].
  rewrite <- Hstored in Hvalues, Hkeys'.
  inversion Hreqs as [|p req ps reqs Hreq Hrest Hp Heq]; subst.
  inversion Hrest; subst.
  destruct Hreq as (formatted & others & Htext & Hothers & Hreq).
  rewrite (@other_responses_distinct (individual_responses r) [persona] 0 persona
             Hkeys' Hlen Hnd eq_refl) in Hothers.
  rewrite Hvalues in Hothers.
  destruct (answers_of "gpt-4" ev1) as [|a [|a' l]]; simpl in Hanswers;
    try discriminate.
  inversion Hothers; subst others.
  exists formatted. split; [exact Htext|]. subst req. reflexivity.
Qed.

Lemma single_persona_has_no_peers_witness :
  exists formatted,
    persona_text three_panel (persona_record "Ana") = inr formatted
    /\ requests_to "gpt-4o-mini" (fst (run three_panel "Q" 1 None []))
       = [collective_request formatted "Q" []].
Proof.
  exact (@single_persona_has_no_peers three_panel "Q" 1 None []
           (fst (run three_panel "Q" 1 None []))
           {| individual_responses := [(KStr "Ana", "answer 0")];
              collective_responses := [(KStr "Ana", "answer 1")] |}
           (persona_record "Ana")
           ltac:(vm_compute; reflexivity) ltac:(vm_compute; reflexivity)).
Defined.

(** * The peers, the skipped file and the nameless record *)



Section Peers.
Variable E : env.


End Peers.

(** ** C2 *)



(** ** C6 *)

Lemma first_round_calls (E : env) question n agents_dir h evs out personas :
  snd (load_personas E (personas_dir_of agents_dir) n h) = inr personas ->
  run E question n agents_dir h = (evs, out) ->
  exists called rest,
    personas = called ++ rest
    /\ Forall2 (asked_alone E question) called (requests_to "gpt-4" evs).
Proof.
  intros Hload Hrun.
  destruct (@run_cases E question n agents_dir h evs out personas Hload Hrun)
    as [[Hnone _]|[(before & h1 & ev1 & e1 & H1 & Hevs & Hb & _)
                  |(before & h1 & ev1 & individual & between & h2 & ev2 & r2 & after
                    & H1 & H2 & Hevs & Hb & Hm & Ha & Hout)]].
  - destruct (no_call_lists "gpt-4" Hnone) as [H4 _]. rewrite H4.
    exists [], personas. split; [reflexivity | constructor].
  - apply individual_phase_prefix in H1.
    destruct (no_call_lists "gpt-4" Hb) as [Hb4 _].
    subst evs. rewrite requests_to_app, Hb4. exact H1.
  - apply collective_phase_calls in H2.
    apply individual_phase_prefix in H1.
    destruct (@shape_calls "gpt-4" before ev1 between ev2 after Hb Hm Ha) as [Hr4 _].
    rewrite Hevs, Hr4, (@calls_to_other _ _ ev2 H2 mini_is_not_gpt4), app_nil_r.
    exact H1.
Qed.

Lemma run_reaches_first_round (E : env) question n agents_dir h evl personas :
  client_error E = None ->
  load_personas E (personas_dir_of agents_dir) n h = (evl, inr personas) ->
  exists rest,
    fst (run E question n agents_dir h)
    = run_prelude question n ++ evl
        ++ Log INFO "Starting first iteration: Individual responses" [] :: rest.
Proof.
  intros Hclient Hload.
  rewrite (@run_after_load E question n agents_dir h evl personas Hclient Hload).
  cbv [fst]. rewrite run_rounds_eq. cbv zeta.
  destruct (individual_phase E personas question [] _) as [ev1 [e|individual]];
    [eexists; reflexivity|].
  destruct (collective_phase E personas question individual [] _)
    as [ev2 [e|collective]]; eexists; reflexivity.
Qed.

(** C6.  When one of the selected files fails to open or parse and the
    others parse, [load_personas] records the error and returns the
    personas of the other files in order, one fewer than the files
    selected.  [run] then starts the first round, calls the endpoint for
    these personas only, in order, and, when they are usable and the
    endpoint answers, returns a result with their names as keys after one
    call for each of them in each round. *)
Theorem load_personas_skips_malformed (E : env) dir n h before bad after e :
  (0 <= n)%Z ->
  selected_files E dir n = before ++ bad :: after ->
  d_load bad = inl e ->
  Forall (fun d => exists persona, d_load d = inr persona) (before ++ after) ->
  exists evl personas,
    load_personas E dir n h = (evl, inr personas)
    /\ Forall2 (fun d persona => d_load d = inr persona) (before ++ after) personas
    /\ S (length personas) = length (selected_files E dir n)
    /\ In (Log ERROR "Error loading persona from {}: {}"
               [file_path dir bad; FExn e]) evl
    /\ forall question agents_dir,
         personas_dir_of agents_dir = dir ->
         client_error E = None ->
         (exists rest,
            fst (run E question n agents_dir h)
            = run_prelude question n ++ evl
                ++ Log INFO "Starting first iteration: Individual responses" []
                :: rest)
         /\ (exists called rest,
               personas = called ++ rest
               /\ Forall2 (asked_alone E question) called
                          (requests_to "gpt-4" (fst (run E question n agents_dir h))))
         /\ (Forall (usable E) personas ->
             (forall h' req, exists text, completion E h' req = inr text) ->
             exists r,
               snd (run E question n agents_dir h) = inr r
               /\ keys (individual_responses r) = fold_left add_key (names personas) []
               /\ keys (collective_responses r) = keys (individual_responses r)
               /\ length (requests_to "gpt-4" (fst (run E question n agents_dir h)))
                  = length personas
               /\ length (requests_to "gpt-4o-mini"
                            (fst (run E question n agents_dir h)))
                  = length personas).
Proof.
  intros Hn Hsel Hbad Hwf.
  assert (Hparsed : parsed (selected_files E dir n) = parsed (before ++ after)).
  { rewrite Hsel, !parsed_app. f_equal.
    unfold parsed. simpl. rewrite Hbad. reflexivity. }
  assert (Hload : load_personas E dir n h
                  = ([Log INFO "Loading {} personas from {}" [FInt n; FStr dir];
                      Log INFO "Found {} persona files"
                          [FInt (Z.of_nat (length (glob_yaml E dir)))]]
                       ++ load_events dir (selected_files E dir n)
                       ++ [Log INFO "Successfully loaded {} personas"
                               [FInt (Z.of_nat (length (parsed (before ++ after))))]],
                     inr (parsed (before ++ after)))).
  { rewrite load_personas_eq. cbv zeta. rewrite random_sample_nonneg by exact Hn.
    rewrite Hparsed. reflexivity. }
  do 2 eexists. split; [exact Hload|].
  pose proof (parsed_well_formed Hwf) as Hall.
  split; [exact Hall|]. split.
  { rewrite <- (Forall2_length_eq Hall), Hsel, !length_app. simpl. lia. }
  split.
  { right. right.
    change (In (Log ERROR "Error loading persona from {}: {}"
                    [file_path dir bad; FExn e])
               (load_events dir (selected_files E dir n)
                  ++ [Log INFO "Successfully loaded {} personas"
                          [FInt (Z.of_nat (length (parsed (before ++ after))))]])).
    apply in_or_app. left.
    rewrite Hsel, load_events_app. apply in_or_app. right.
    change (load_events dir (bad :: after))
      with (file_events dir bad ++ load_events dir after).
    apply in_or_app. left. unfold file_events. rewrite Hbad.
    right. left. reflexivity. }
  intros question agents_dir Hdir Hclient. subst dir.
  assert (Hloaded : snd (load_personas E (personas_dir_of agents_dir) n h)
                    = inr (parsed (before ++ after)))
    by (rewrite Hload; reflexivity).
  destruct (run E question n agents_dir h) as [evs out] eqn:Hrun.
  split.
  { replace evs with (fst (run E question n agents_dir h))
      by (rewrite Hrun; reflexivity).
    apply (@run_reaches_first_round E question n agents_dir h _ _ Hclient Hload). }
  split.
  { apply (@first_round_calls E question n agents_dir h evs out _ Hloaded Hrun). }
  intros Husable Hanswered.
  destruct (@run_returns E Hanswered question n agents_dir h _ Hclient Hloaded Husable)
    as [r Hr].
  rewrite Hrun in Hr. simpl in Hr. subst out.
  exists r. split; [reflexivity|].
  destruct (@run_inv E _ _ _ _ _ _ _ Hloaded Hrun)
    as (h1 & ev1 & h2 & ev2 & H1 & H2 & Hr1 & _ & Hr2).
  apply individual_phase_ok in H1. destruct H1 as (_ & Hk1 & _ & Hreqs1 & _).
  apply collective_phase_ok in H2. destruct H2 as (Hk2 & Hreqs2).
  simpl in Hk1, Hk2. cbv [fst]. rewrite Hr1, Hr2.
  split; [exact Hk1|]. split; [congruence|].
  split; symmetry; eapply Forall2_length_eq; eassumption.
Qed.

Lemma load_personas_skips_malformed_witness :
  exists evl personas r,
    load_personas (panel_env (Some one_malformed) numbered_answers) panel_dir 5 []
    = (evl, inr personas)
    /\ S (length personas) = 5
    /\ In (Log ERROR "Error loading persona from {}: {}"
               [FPath panel_dir "bad.yaml";
                FExn (OtherError "ScannerError" "mapping values are not allowed here")])
          evl
    /\ snd (run (panel_env (Some one_malformed) numbered_answers) "Q" 5 None [])
       = inr r
    /\ keys (individual_responses r) = [KStr "Ana"; KStr "Bo"; KStr "Di"; KStr "Ed"]
    /\ length (requests_to "gpt-4"
                 (fst (run (panel_env (Some one_malformed) numbered_answers)
                         "Q" 5 None []))) = 4.
Proof.
  destruct (@load_personas_skips_malformed
              (panel_env (Some one_malformed) numbered_answers) panel_dir 5 []
              [persona_file "ana.yaml" "Ana"; persona_file "bo.yaml" "Bo"]
              malformed_file
              [persona_file "di.yaml" "Di"; persona_file "ed.yaml" "Ed"]
              (OtherError "ScannerError" "mapping values are not allowed here")
              ltac:(lia) eq_refl eq_refl
              ltac:(repeat constructor; eexists; reflexivity))
    as (evl & personas & Hload & Hall & Hlen & Hlog & Hrun).
  assert (Hpersonas : personas = [persona_record "Ana"; persona_record "Bo";
                                  persona_record "Di"; persona_record "Ed"]).
  { assert (H : snd (load_personas (panel_env (Some one_malformed) numbered_answers)
                       panel_dir 5 []) = inr personas)
      by (rewrite Hload; reflexivity).
    vm_compute in H. inversion H. reflexivity. }
  destruct (Hrun "Q" None eq_refl eq_refl) as (_ & _ & Hreturns).
  destruct Hreturns as (r & Hr & Hkeys & _ & Hcalls & _).
  - subst personas.
    repeat (apply Forall_cons;
            [split; [eexists; vm_compute; reflexivity | eexists; reflexivity]|]).
    apply Forall_nil.
  - intros h' req. eexists. reflexivity.
  - exists evl, personas, r. split; [exact Hload|]. split; [exact Hlen|].
    split; [exact Hlog|]. split; [exact Hr|]. subst personas.
    split; [exact Hkeys | exact Hcalls].
Defined.

(** ** C9 *)

Section Nameless.
Variable E : env.
Variable persona : yaml.
Variable e : exn.
Variable question : string.
Hypothesis nameless : subscript persona "name" = inl e.

Lemma get_individual_response_nameless h :
  get_individual_response E persona question h = ([], inl e).
Proof. rewrite get_individual_response_eq, nameless. reflexivity. Qed.

(** Whatever happens to the personas before it, the nameless one is never
    sent to the endpoint and the first loop does not complete. *)
Lemma individual_phase_skips_nameless before rest responses h evs out :
  individual_phase E (before ++ persona :: rest) question responses h = (evs, out) ->
  (exists e', out = inl e')
  /\ length (requests_to "gpt-4" evs) <= length before.
Proof.
  intros H. split.
  - destruct (@individual_phase_nameless E persona e question nameless
                (before ++ persona :: rest) responses h) as [e' He'].
    + apply in_or_app. right. left. reflexivity.
    + rewrite H in He'. eauto.
  - apply individual_phase_prefix in H.
    destruct H as (called & rest0 & Hsplit & Hcalled).
    rewrite <- (Forall2_length_eq Hcalled).
    destruct (Nat.le_gt_cases (length called) (length before)) as [Hle|Hgt];
      [exact Hle|].
    exfalso.
    assert (Hnth : nth_error called (length before) = Some persona).
    { rewrite <- (nth_error_app1 called rest0 Hgt), <- Hsplit.
      rewrite nth_error_app2, Nat.sub_diag by lia. reflexivity. }
    destruct (Forall2_nth_error (length before) Hcalled Hnth)
      as (req & _ & formatted & Htext & _).
    rewrite (persona_text_needs_name E persona nameless) in Htext. discriminate.
Qed.

Hypothesis answered : forall h req, exists text, completion E h req = inr text.

(** When the personas before it are usable and answered, the first loop
    ends with the error of the lookup, after one call for each of them. *)
Lemma individual_phase_stops : forall before,
  Forall (usable E) before ->
  forall rest responses h,
    exists evs,
      individual_phase E (before ++ persona :: rest) question responses h
      = (evs, inl e)
      /\ length (requests_to "gpt-4" evs) = length before.
Proof.
  induction 1 as [|p before [[formatted Htext] [k Hk]] _ IH]; intros rest responses h.
  - simpl app. rewrite individual_phase_cons, get_individual_response_nameless.
    exists []. split; reflexivity.
  - simpl app. rewrite individual_phase_cons, get_individual_response_eq.
    rewrite (name_key_inv _ Hk), Htext. cbv zeta.
    destruct (answered (h ++ [Log INFO "Getting individual response from persona: {}"
                                  [FVal (YScalar k)];
                              Log DEBUG "Formatting prompt for persona: {}"
                                  [FVal (YScalar k)]])
                       (individual_request formatted question)) as [text Htext'].
    rewrite Htext'. simpl as_key. cbv iota.
    destruct (IH rest (dict_set responses k text)
                 (h ++ [Log INFO "Getting individual response from persona: {}"
                            [FVal (YScalar k)];
                        Log DEBUG "Formatting prompt for persona: {}"
                            [FVal (YScalar k)]]
                    ++ [Create (individual_request formatted question) (inr text);
                        Log DEBUG "Received response for {}" [FVal (YScalar k)]]))
      as (evs & Hevs & Hlen).
    rewrite Hevs. eexists. split; [reflexivity|].
    rewrite requests_to_app. simpl. rewrite Hlen. reflexivity.
Qed.
End Nameless.

(** C9, as the code has it.  A selected file that parses to a value
    without ['name'] has its value among the personas that [load_personas]
    returns, at its place, next to an error record.  The run is then
    fatal, and the lookup that fails is the one that opens
    [get_individual_response]: the wrapper raises before it writes a record
    or calls the formatter, no request is ever made for that persona, and
    when the personas before it are answered the run ends with exactly that
    lookup error.  The formatter raises the same error when called on the
    record. *)
Theorem nameless_record_stops_run (E : env) dir n h before d after persona e :
  (0 <= n)%Z ->
  selected_files E dir n = before ++ d :: after ->
  d_load d = inr persona ->
  subscript persona "name" = inl e ->
  exists evl,
    load_personas E dir n h = (evl, inr (parsed before ++ persona :: parsed after))
    /\ In (Log ERROR "Error loading persona from {}: {}"
               [file_path dir d; FExn e]) evl
    /\ (forall question h', get_individual_response E persona question h' = ([], inl e))
    /\ (forall h', format_persona_for_prompt E persona h' = ([], inl e))
    /\ forall question agents_dir,
         personas_dir_of agents_dir = dir ->
         client_error E = None ->
         (exists e', snd (run E question n agents_dir h) = inl e')
         /\ length (requests_to "gpt-4" (fst (run E question n agents_dir h)))
            <= length (parsed before)
         /\ requests_to "gpt-4o-mini" (fst (run E question n agents_dir h)) = []
         /\ (Forall (usable E) (parsed before) ->
             (forall h' req, exists text, completion E h' req = inr text) ->
             snd (run E question n agents_dir h) = inl e
             /\ length (requests_to "gpt-4" (fst (run E question n agents_dir h)))
                = length (parsed before)).
Proof.
  intros Hn Hsel Hload Hname.
  assert (Hparsed : parsed (selected_files E dir n)
                    = parsed before ++ persona :: parsed after).
  { rewrite Hsel, parsed_app. f_equal. unfold parsed. simpl. rewrite Hload.
    reflexivity. }
  assert (Hl : exists evl,
             load_personas E dir n h
             = (evl, inr (parsed before ++ persona :: parsed after))
             /\ In (Log ERROR "Error loading persona from {}: {}"
                        [file_path dir d; FExn e]) evl).
  { rewrite load_personas_eq. cbv zeta. rewrite random_sample_nonneg by exact Hn.
    rewrite Hparsed. eexists. split; [reflexivity|].
    apply in_or_app. right. apply in_or_app. left.
    eapply load_events_name_error; [|eassumption|eassumption].
    rewrite Hsel. apply in_or_app. right. left. reflexivity. }
  destruct Hl as (evl & Hl & Hlog).
  exists evl. split; [exact Hl|]. split; [exact Hlog|].
  split; [intros question h'; apply get_individual_response_nameless; exact Hname|].
  split.
  { intros h'. rewrite format_persona_for_prompt_eq, Hname. reflexivity. }
  intros question agents_dir Hdir Hclient. subst dir.
  assert (Hnone : no_call evl)
    by (unfold no_call; eapply load_personas_no_call; exact Hl).
  rewrite (@run_after_load E question _ _ _ _ _ Hclient Hl).
  cbv [fst snd]. rewrite run_rounds_eq. cbv zeta.
  destruct (individual_phase E _ question [] _) as [ev1 r1] eqn:H1.
  pose proof H1 as Hskip.
  apply (@individual_phase_skips_nameless E persona e question Hname) in Hskip.
  destruct Hskip as [[e' He'] Hle]. subst r1.
  pose proof H1 as Hc1. apply individual_phase_calls in Hc1. destruct Hc1 as [Hc1 _].
  destruct (no_call_lists "gpt-4" Hnone) as [Hn4 _].
  destruct (no_call_lists "gpt-4o-mini" Hnone) as [Hnm _].
  assert (H4 : requests_to "gpt-4"
                 (run_prelude question n ++ evl
                    ++ Log INFO "Starting first iteration: Individual responses" []
                    :: ev1)
               = requests_to "gpt-4" ev1)
    by (rewrite !requests_to_app, Hn4; reflexivity).
  assert (Hmini : requests_to "gpt-4o-mini"
                    (run_prelude question n ++ evl
                       ++ Log INFO "Starting first iteration: Individual responses" []
                       :: ev1)
                  = []).
  { rewrite !requests_to_app, Hnm. simpl.
    apply (@calls_to_other _ _ ev1 Hc1 gpt4_is_not_mini). }
  cbv [fst snd]. rewrite H4, Hmini.
  split; [eauto|]. split; [exact Hle|]. split; [reflexivity|].
  intros Husable Hanswered.
  edestruct (@individual_phase_stops E persona e question Hname Hanswered
               (parsed before) Husable (parsed after) [])
    as (evs & Hevs & Hlen).
  rewrite H1 in Hevs. inversion Hevs; subst. split; [reflexivity | exact Hlen].
Qed.

Lemma nameless_record_stops_run_witness :
  snd (run (panel_env (Some panel_with_nameless) numbered_answers) "Q" 3 None [])
  = inl (KeyError "name")
  /\ length (requests_to "gpt-4"
               (fst (run (panel_env (Some panel_with_nameless) numbered_answers)
                       "Q" 3 None []))) = 1.
Proof.
  destruct (@nameless_record_stops_run
              (panel_env (Some panel_with_nameless) numbered_answers) panel_dir 3 []
              [persona_file "ana.yaml" "Ana"] nameless_file
              [persona_file "bo.yaml" "Bo"] nameless_record (KeyError "name")
              ltac:(lia) eq_refl eq_refl eq_refl)
    as (evl & _ & _ & _ & _ & Hrun).
  destruct (Hrun "Q" None eq_refl eq_refl) as (_ & _ & _ & Hexact).
  apply Hexact.
  - apply Forall_cons; [|apply Forall_nil].
    split; [eexists; vm_compute; reflexivity | eexists; reflexivity].
  - intros h' req. eexists. reflexivity.
Defined.

(** C9 as stated fails on where the run fails: with one nameless record
    loaded, the run ends with the lookup error right after the first round
    starts; the formatter is not called (it writes no record) and nothing
    is sent. *)
Lemma nameless_run_fails_before_formatting :
  run (panel_env (Some [nameless_file]) numbered_answers) "Q" 1 None []
  = ([Log INFO "Starting persona simulation run" [];
      Log INFO "Question: {}" [FStr "Q"];
      Log INFO "Number of personas requested: {}" [FInt 1];
      Log INFO "Loading {} personas from {}" [FInt 1; FStr panel_dir];
      Log INFO "Found {} persona files" [FInt 1];
      Log DEBUG "Loading persona from {}" [FPath panel_dir "anon.yaml"];
      Log ERROR "Error loading persona from {}: {}"
          [FPath panel_dir "anon.yaml"; FExn (KeyError "name")];
      Log INFO "Successfully loaded {} personas" [FInt 1];
      Log INFO "Starting first iteration: Individual responses" []],
     inl (KeyError "name")).
Proof. vm_compute. reflexivity. Qed.
